(** * A shallow embedding of the SimpleRAG retrieval pipeline

    The development follows the Python sources module by module:
    [text_embedder.py], [document_processor.py], [qdrant_index.py],
    [endpoint.py] and [simple_rag.py].

    Conventions.
    - Python exceptions are values of [exn]; a call either returns
      ([Ok]) or raises ([Raise]).  [isinstance_Exception] and
      [isinstance_ValueError] encode the part of the built-in class
      hierarchy the [except] clauses of the sources discriminate on.
    - Methods that mutate [self] are state transformers
      [S -> res A * S]: the state is returned also when the call raises,
      because Python keeps every mutation done before the exception.
    - Everything outside the process (file system, pretrained model,
      HTTP endpoint) is a field of [World].
    - A Python float is represented by the rational number it denotes;
      a float literal by the rational its decimal text denotes.
    - Calls to [logging] have no effect on any value and are omitted. *)

From Stdlib Require Import List String Ascii Bool Arith Lia.
From Stdlib Require Import QArith Lqa Sorting.Sorted Sorting.Permutation.
Import ListNotations.
Local Close Scope Q_scope.
Local Open Scope string_scope.
Local Open Scope list_scope.

Set Implicit Arguments.
Set Warnings "-register-all".

(** ** Exceptions *)

(** What [requests] raises inside [RequestSender.send]. *)
Inductive request_exception :=
| ConnectionError
| HTTPError (status : nat).

Inductive exn :=
| ValueError (msg : string)
| UnicodeDecodeError
| OSError (msg : string)
| KeyError (key : string)
| TypeError
| IndexError
| RuntimeError (msg : string)
| QdrantError (msg : string)
| SystemExit (msg : string) (cause : option request_exception)
| KeyboardInterrupt.

(** [SystemExit] and [KeyboardInterrupt] derive from [BaseException]
    only; every other class above derives from [Exception]. *)
Definition isinstance_Exception (e : exn) : bool :=
  match e with
  | SystemExit _ _ | KeyboardInterrupt => false
  | _ => true
  end.

(** [UnicodeDecodeError] is a subclass of [ValueError]. *)
Definition isinstance_ValueError (e : exn) : bool :=
  match e with
  | ValueError _ | UnicodeDecodeError => true
  | _ => false
  end.

Inductive res (A : Type) :=
| Ok (a : A)
| Raise (e : exn).
Arguments Ok {A} a.
Arguments Raise {A} e.

(** ** A state-and-exception monad for methods that mutate [self] *)

Module Py.

Definition M (S A : Type) : Type := S -> res A * S.

Definition ret {S A} (a : A) : M S A := fun s => (Ok a, s).

Definition raise {S A} (e : exn) : M S A := fun s => (Raise e, s).

Definition bind {S A B} (m : M S A) (k : A -> M S B) : M S B :=
  fun s =>
    match m s with
    | (Ok a, s') => k a s'
    | (Raise e, s') => (Raise e, s')
    end.

Definition get {S} : M S S := fun s => (Ok s, s).

Definition modify {S} (f : S -> S) : M S unit := fun s => (Ok tt, f s).

(** A call that cannot touch the state but may raise. *)
Definition lift {S A} (r : res A) : M S A := fun s => (r, s).

(** Runs a method of a member object: [m] acts on the part [get s] of
    the state, which is written back also when [m] raises. *)
Definition zoom {S T A} (get : S -> T) (set : T -> S -> S) (m : M T A) : M S A :=
  fun s => let (r, t') := m (get s) in (r, set t' s).

(** [try: m  except C as e: h e] where [C] is the class test
    [catches]; exceptions outside [C] keep propagating. *)
Definition try_except {S A} (m : M S A)
           (catches : exn -> bool) (h : exn -> M S A) : M S A :=
  fun s =>
    match m s with
    | (Ok a, s') => (Ok a, s')
    | (Raise e, s') => if catches e then h e s' else (Raise e, s')
    end.

End Py.

Declare Scope py_scope.
Delimit Scope py_scope with py.
Notation "x <- m ;; k" := (Py.bind m (fun x => k))
  (at level 61, m at next level, right associativity) : py_scope.
Notation "m ;;; k" := (Py.bind m (fun _ => k))
  (at level 61, right associativity) : py_scope.

(** The same for code without mutable state. *)
Definition rbind {A B} (r : res A) (k : A -> res B) : res B :=
  match r with
  | Ok a => k a
  | Raise e => Raise e
  end.

Declare Scope res_scope.
Delimit Scope res_scope with res.
Notation "x <~ r ;; k" := (rbind r (fun x => k))
  (at level 61, r at next level, right associativity) : res_scope.

(** ** Strings and paths *)

(** The line feed of the ["\n"] escapes in the sources. *)
Definition nl : string := String (ascii_of_nat 10) EmptyString.

(** [s.endswith(suffix)] *)
Definition endswith (s suffix : string) : bool :=
  let n := String.length s in
  let m := String.length suffix in
  Nat.leb m n && String.eqb (substring (n - m) m s) suffix.

(** [s.startswith(prefix)] *)
Definition startswith (s pre : string) : bool := String.prefix pre s.

(** [os.path.join(a, b)] of [posixpath]. *)
Definition os_path_join (a b : string) : string :=
  if startswith b "/" then b
  else if String.eqb a "" || endswith a "/" then a ++ b
  else a ++ "/" ++ b.

(** ** Arrays

    [embed_text] returns a two-dimensional numpy array of shape [(1, D)];
    [flatten] turns any array into a one-dimensional one. *)
Inductive ndarray :=
| Arr1 (data : list Q)
| Arr2 (rows : list (list Q)).

Definition flatten (a : ndarray) : ndarray :=
  match a with
  | Arr1 d => Arr1 d
  | Arr2 rows => Arr1 (List.concat rows)
  end.

Definition tolist (a : ndarray) : list Q :=
  match a with
  | Arr1 d => d
  | Arr2 rows => List.concat rows
  end.

(** [a.shape[1]]: a one-dimensional shape has no index 1. *)
Definition shape1 (a : ndarray) : res nat :=
  match a with
  | Arr1 _ => Raise IndexError
  | Arr2 [] => Ok 0
  | Arr2 (r :: _) => Ok (List.length r)
  end.

(** ** JSON values and request payloads *)

Inductive json :=
| JNull
| JBool (b : bool)
| JNum (q : Q)
| JStr (s : string)
| JArr (l : list json)
| JObj (fields : list (string * json)).

Fixpoint assoc_get {V} (k : string) (l : list (string * V)) : option V :=
  match l with
  | [] => None
  | (k', v) :: l' => if String.eqb k k' then Some v else assoc_get k l'
  end.

(** [v[key]] for a string key: only a dict can be subscripted so, and a
    missing key is a [KeyError]. *)
Definition getitem (v : json) (key : string) : res json :=
  match v with
  | JObj fields =>
      match assoc_get key fields with
      | Some x => Ok x
      | None => Raise (KeyError key)
      end
  | _ => Raise TypeError
  end.

Record message := { role : string; content : string }.

Record payload := {
  p_model : string;
  p_messages : list message;
  p_temperature : Q;
  p_top_p : Q;
  p_max_tokens : nat;
  p_stream : bool
}.

(** What [requests.post] does: it raises (no connection) or hands back a
    response with a status code and a body, which parses as JSON or does
    not. *)
Inductive http_result :=
| NoResponse
| HttpResponse (status : nat) (body : option json).

(** ** The world outside the process *)

Record World := {
  (** [os.listdir(path)] *)
  os_listdir : string -> res (list string);
  (** [open(path, "r", encoding="utf-8").read()] *)
  open_read : string -> res string;
  (** [AutoTokenizer.from_pretrained] and [AutoModel.from_pretrained] *)
  from_pretrained : string -> string -> res unit;
  (** tokenizer, model and [last_hidden_state.mean(dim=1).numpy()] *)
  model_forward : string -> res ndarray;
  (** [requests.post(endpoint, headers=..., json=...)] *)
  requests_post : string -> list (string * string) -> payload -> http_result
}.

(** ** text_embedder.py *)

Module TextEmbedder.

Record t := { model_name : string; token : string }.

(** [__init__]: a loading failure is logged and re-raised. *)
Definition init (w : World) (model_name token : string) : res t :=
  (_ <~ from_pretrained w model_name token ;;
   Ok {| model_name := model_name; token := token |})%res.

(** [embed_text]: a failure is logged and re-raised. *)
Definition embed_text (w : World) (self : t) (text : string) : res ndarray :=
  model_forward w text.

End TextEmbedder.

(** ** document_processor.py *)

Module DocumentProcessor.

Record t := {
  documents_dir : string;
  embedder : TextEmbedder.t;
  document_titles : list string;
  document_embeddings : list ndarray
}.

Definition init (documents_dir : string) (embedder : TextEmbedder.t) : t :=
  {| documents_dir := documents_dir; embedder := embedder;
     document_titles := []; document_embeddings := [] |}.

(** [processor.documents_dir = dir] *)
Definition set_documents_dir (dir : string) (p : t) : t :=
  {| documents_dir := dir; embedder := embedder p;
     document_titles := document_titles p;
     document_embeddings := document_embeddings p |}.

(** [self.document_embeddings.append(embedding)] followed by
    [self.document_titles.append(filename)]. *)
Definition append_document (embedding : ndarray) (filename : string) (p : t) : t :=
  {| documents_dir := documents_dir p; embedder := embedder p;
     document_titles := document_titles p ++ [filename];
     document_embeddings := document_embeddings p ++ [embedding] |}.

Definition no_embeddings_msg : string :=
  "No document embeddings were created. Please check your documents directory.".

Section WithWorld.
Variable w : World.
Local Open Scope py_scope.

(** The body of the [for filename in os.listdir(...)] loop. *)
Definition process_file (filename : string) : Py.M t unit :=
  if endswith filename ".txt" then
    self <- Py.get ;;
    content <- Py.lift (open_read w (os_path_join (documents_dir self) filename)) ;;
    embedding <- Py.lift (TextEmbedder.embed_text w (embedder self) content) ;;
    Py.modify (append_document embedding filename)
  else Py.ret tt.

Fixpoint process_files (names : list string) : Py.M t unit :=
  match names with
  | [] => Py.ret tt
  | filename :: rest => process_file filename ;;; process_files rest
  end.

(** [process_documents].  The outer [except Exception as e: ...; raise]
    logs and re-raises, so it changes no outcome. *)
Definition process_documents : Py.M t unit :=
  self <- Py.get ;;
  names <- Py.lift (os_listdir w (documents_dir self)) ;;
  process_files names ;;;
  self <- Py.get ;;
  match document_embeddings self with
  | [] => Py.raise (ValueError no_embeddings_msg)
  | _ :: _ => Py.ret tt
  end.

End WithWorld.

End DocumentProcessor.

(** ** The in-memory Qdrant collection

    [qdrant_client] is a third-party package that is not part of the
    sources; [qdrant_index.py] only calls [create_collection], [upsert]
    and [search] on it.  Everything in this module is therefore written
    after sections 4.2 and 8 of the specification.  Two idealisations:
    vectors are stored as given (no normalisation), and similarities are
    exact rationals.  Equally similar points are listed latest first, as
    the in-memory client returns them; section 4.2 names the opposite
    order, and no statement about [search] relies on either. *)

Module Qdrant.

(** [PointStruct(id=..., vector=..., payload={"title": ...})] *)
Record PointStruct := { id : nat; vector : list Q; title : string }.

(** A collection created with [VectorParams(size, Distance.COSINE)]:
    its points in insertion order. *)
Record collection := { size : nat; points : list PointStruct }.

(** Modelled from the spec: [create_collection] of the absent
    [qdrant_client] allocates a fresh, empty index for vectors of
    exactly [size] components. *)
Definition create_collection (size : nat) : collection :=
  {| size := size; points := [] |}.

(** Modelled from the spec: writing one point of the absent
    [qdrant_client]; a point written under an id that is already present
    takes the place of the older one, a new id goes to the end. *)
Fixpoint upsert_point (p : PointStruct) (l : list PointStruct) : list PointStruct :=
  match l with
  | [] => [p]
  | x :: l' => if Nat.eqb (id x) (id p) then p :: l' else x :: upsert_point p l'
  end.

(** Modelled from the spec: the bulk write of the absent
    [qdrant_client], one point after the other in sequence order. *)
Definition upsert_all (pts acc : list PointStruct) : list PointStruct :=
  fold_left (fun acc p => upsert_point p acc) pts acc.

(** Modelled from the spec: [upsert] of the absent [qdrant_client].
    Spec 4.2 and 8: bulk insert; it fails if any vector's dimension
    differs from the configured one and then leaves the collection
    unchanged (no partial insert). *)
Definition upsert (c : collection) (pts : list PointStruct) : res collection :=
  if forallb (fun p => Nat.eqb (List.length (vector p)) (size c)) pts
  then Ok {| size := size c; points := upsert_all pts (points c) |}
  else Raise (QdrantError "vector dimension mismatch").

Local Open Scope Q_scope.

(** Modelled from the spec: the inner product the cosine metric of the
    absent [qdrant_client] is made of. *)
Fixpoint dot (u v : list Q) : Q :=
  match u, v with
  | a :: u', b :: v' => a * b + dot u' v'
  | _, _ => 0
  end.

(** Modelled from the spec: the squared length of a vector. *)
Definition norm2 (u : list Q) : Q := dot u u.

(** Modelled from the spec: [x |-> sign(x) * x^2], which is strictly
    increasing, so comparing signed squares of cosines is comparing the
    cosines. *)
Definition signed_square (x : Q) : Q :=
  if Qle_bool 0 x then x * x else - (x * x).

(** Modelled from the spec: the cosine metric of the absent
    [qdrant_client].  The cosine of the angle between [q] and [u] is
    [dot q u / sqrt (norm2 q * norm2 u)], which is not rational; the
    ranking only compares cosines, so it is computed on their signed
    squares.  A zero vector has similarity 0 to everything. *)
Definition cosine_rank (q u : list Q) : Q :=
  let n := norm2 q * norm2 u in
  if Qeq_bool n 0 then 0 else signed_square (dot q u) / n.

(** Modelled from the spec: ranking in the absent [qdrant_client], one
    step.  In a list sorted by decreasing similarity the new point goes
    in front of the first point that is strictly less similar. *)
Fixpoint insert_hit (q : list Q) (p : PointStruct) (l : list PointStruct)
  : list PointStruct :=
  match l with
  | [] => [p]
  | y :: l' =>
      if Qle_bool (cosine_rank q (vector p)) (cosine_rank q (vector y))
      then y :: insert_hit q p l'
      else p :: y :: l'
  end.

(** Modelled from the spec: ranking in the absent [qdrant_client], by
    descending similarity; among equally similar points the one stored
    later comes first. *)
Definition rank_hits (q : list Q) (l : list PointStruct) : list PointStruct :=
  fold_right (insert_hit q) [] l.

(** Modelled from the spec: [search] of the absent [qdrant_client].
    Spec 4.2: at most [limit] hits ranked by descending cosine
    similarity to the query; it fails if the query's dimension differs
    from the configured one. *)
Definition search (c : collection) (query_vector : list Q) (limit : nat)
  : res (list PointStruct) :=
  if Nat.eqb (List.length query_vector) (size c)
  then Ok (firstn limit (rank_hits query_vector (points c)))
  else Raise (QdrantError "vector dimension mismatch").

End Qdrant.

(** ** qdrant_index.py *)

Module QdrantIndex.

Record t := { collection_name : string; client : Qdrant.collection }.

(** [__init__]: [QdrantClient(":memory:")] is a fresh client, so
    [collection_exists] is false, nothing is deleted, and the
    collection is created empty. *)
Definition init (dimension : nat) : t :=
  {| collection_name := "documents";
     client := Qdrant.create_collection dimension |}.

Fixpoint enumerate_from {A} (start : nat) (l : list A) : list (nat * A) :=
  match l with
  | [] => []
  | x :: l' => (start, x) :: enumerate_from (S start) l'
  end.

(** The list comprehension over [enumerate(zip(embeddings, titles))]. *)
Definition make_points (embeddings : list ndarray) (titles : list string)
  : list Qdrant.PointStruct :=
  map (fun it : nat * (ndarray * string) =>
         let '(i, (embedding, title)) := it in
         {| Qdrant.id := i;
            Qdrant.vector := tolist (flatten embedding);
            Qdrant.title := title |})
      (enumerate_from 0 (combine embeddings titles)).

(** [add_embeddings]: a failing [upsert] is logged and re-raised. *)
Definition add_embeddings (embeddings : list ndarray) (titles : list string)
  : Py.M t unit :=
  fun self =>
    match Qdrant.upsert (client self) (make_points embeddings titles) with
    | Ok c => (Ok tt, {| collection_name := collection_name self; client := c |})
    | Raise e => (Raise e, self)
    end.

(** [search]: a failing client call is logged and re-raised. *)
Definition search (self : t) (query_embedding : ndarray) (top_n : nat)
  : res (list string) :=
  (search_result <~ Qdrant.search (client self)
                      (tolist (flatten query_embedding)) top_n ;;
   Ok (map Qdrant.title search_result))%res.

End QdrantIndex.

(** ** endpoint.py *)

Module RequestSender.

(** [response.raise_for_status()]: [HTTPError] for 4xx and 5xx. *)
Definition raise_for_status (status : nat) : option request_exception :=
  if Nat.leb 400 status && Nat.ltb status 600
  then Some (HTTPError status) else None.

(** [send].  [requests.post] and [raise_for_status] raise subclasses of
    [requests.RequestException], which the outer handler turns into
    [SystemExit]; a body that is not JSON makes [response.json()] raise
    a [ValueError], which the inner handler turns into [SystemExit] as
    well. *)
Definition send (w : World) (endpoint : string)
           (headers : list (string * string)) (payload : payload) : res json :=
  match requests_post w endpoint headers payload with
  | NoResponse =>
      Raise (SystemExit "Failed to make the request. Error: " (Some ConnectionError))
  | HttpResponse status body =>
      match raise_for_status status with
      | Some e => Raise (SystemExit "Failed to make the request. Error: " (Some e))
      | None =>
          match body with
          | Some v => Ok v
          | None => Raise (SystemExit "Failed to parse the response as JSON." None)
          end
      end
  end.

End RequestSender.

Module EndPoint.

(** [request_sender] is always the default [RequestSender()]. *)
Record t := {
  api_key : string;
  endpoint : string;
  headers : list (string * string)
}.

Definition init (api_key endpoint : string) : t :=
  {| api_key := api_key; endpoint := endpoint;
     headers := [("Content-Type", "application/json"); ("api-key", api_key)] |}.

Definition send (w : World) (self : t) (payload : payload) : res json :=
  RequestSender.send w (endpoint self) (headers self) payload.

End EndPoint.

(** ** simple_rag.py *)

Module SimpleRAG.

Record t := {
  embedder : TextEmbedder.t;
  processor : DocumentProcessor.t;
  index : QdrantIndex.t;
  api_key : string;
  api_url : string;
  top_n : nat;
  model : string;
  temperature : Q;
  top_p : Q;
  max_tokens : nat
}.

Definition default {A} (d : A) (o : option A) : A :=
  match o with Some a => a | None => d end.

(** [__init__]; a keyword argument left out is [None] here and takes
    the default of the signature. *)
Definition init (embedder : TextEmbedder.t) (processor : DocumentProcessor.t)
           (index : QdrantIndex.t) (api_key api_url : string)
           (top_n : option nat) (model : option string)
           (temperature top_p : option Q) (max_tokens : option nat) : t :=
  {| embedder := embedder; processor := processor; index := index;
     api_key := api_key; api_url := api_url;
     top_n := default 3 top_n;
     model := default "llama3.2" model;
     temperature := default (1 # 10)%Q temperature;
     top_p := default (95 # 100)%Q top_p;
     max_tokens := default 3000 max_tokens |}.

Definition with_processor (p : DocumentProcessor.t) (self : t) : t :=
  {| embedder := embedder self; processor := p; index := index self;
     api_key := api_key self; api_url := api_url self; top_n := top_n self;
     model := model self; temperature := temperature self;
     top_p := top_p self; max_tokens := max_tokens self |}.

Definition with_index (i : QdrantIndex.t) (self : t) : t :=
  {| embedder := embedder self; processor := processor self; index := i;
     api_key := api_key self; api_url := api_url self; top_n := top_n self;
     model := model self; temperature := temperature self;
     top_p := top_p self; max_tokens := max_tokens self |}.

Definition system_prompt : string :=
  "You are a helpful assistant named DocumentFinder".

Definition _create_payload (self : t) (prompt : string) : payload :=
  {| p_model := model self;
     p_messages := [ {| role := "system"; content := system_prompt |};
                     {| role := "user"; content := prompt |} ];
     p_temperature := temperature self;
     p_top_p := top_p self;
     p_max_tokens := max_tokens self;
     p_stream := false |}.

(** The f-string of [generate_response]. *)
Definition make_prompt (query retrieved_content : string) : string :=
  "Based on the following documents:" ++ nl ++ retrieved_content
    ++ nl ++ "Answer the query: " ++ query.

Section WithWorld.
Variable w : World.

(** The loop of [retrieve]:
    [retrieved_content += file.read() + "\n"] for each title. *)
Fixpoint read_titles (dir : string) (titles : list string)
         (retrieved_content : string) : res string :=
  match titles with
  | [] => Ok retrieved_content
  | title :: rest =>
      (text <~ open_read w (os_path_join dir title) ;;
       read_titles dir rest (retrieved_content ++ text ++ nl))%res
  end.

(** [retrieve]: any failure is logged and re-raised. *)
Definition retrieve (self : t) (query : string) : res (string * list string) :=
  (e <~ TextEmbedder.embed_text w (embedder self) query ;;
   let query_embedding := flatten e in
   retrieved_titles <~ QdrantIndex.search (index self) query_embedding (top_n self) ;;
   retrieved_content <~ read_titles
       (DocumentProcessor.documents_dir (processor self)) retrieved_titles "" ;;
   Ok (retrieved_content, retrieved_titles))%res.

(** [generate_response]: [except Exception] answers [None]; an
    exception that is not an [Exception] keeps propagating. *)
Definition generate_response (self : t) (query retrieved_content : string)
  : res (option json) :=
  let endpoint := EndPoint.init (api_key self) (api_url self) in
  let prompt := make_prompt query retrieved_content in
  match (response <~ EndPoint.send w endpoint (_create_payload self prompt) ;;
         m <~ getitem response "message" ;;
         getitem m "content")%res with
  | Ok response_text => Ok (Some response_text)
  | Raise e => if isinstance_Exception e then Ok None else Raise e
  end.

Local Open Scope py_scope.

(** The lines shared by [update_documents] and [create_simple_rag]
    after processing: a fresh index of the dimension of the first
    embedding is bound first and filled afterwards. *)
Definition first_dimension (p : DocumentProcessor.t) : res nat :=
  match DocumentProcessor.document_embeddings p with
  | [] => Raise IndexError
  | e0 :: _ => shape1 e0
  end.

(** [update_documents].  [except ValueError] logs and returns. *)
Definition update_documents (new_documents_dir : string) : Py.M t unit :=
  Py.modify (fun self =>
    with_processor
      (DocumentProcessor.set_documents_dir new_documents_dir (processor self))
      self) ;;;
  processed <-
    Py.try_except
      (Py.zoom processor with_processor (DocumentProcessor.process_documents w) ;;;
       Py.ret true)
      isinstance_ValueError
      (fun _ => Py.ret false) ;;
  if processed then
    self <- Py.get ;;
    dimension <- Py.lift (first_dimension (processor self)) ;;
    Py.modify (with_index (QdrantIndex.init dimension)) ;;;
    Py.zoom index with_index
      (QdrantIndex.add_embeddings
         (DocumentProcessor.document_embeddings (processor self))
         (DocumentProcessor.document_titles (processor self)))
  else Py.ret tt.

End WithWorld.

End SimpleRAG.

(** [create_simple_rag]: the result is [None] when processing raised a
    [ValueError]; [model], [temperature] and [top_p] are accepted and not
    handed on. *)
Definition create_simple_rag (w : World)
           (documents_dir api_key api_url huggingface_token : string)
           (model : string) (temperature top_p : Q) (max_tokens : nat)
  : res (option SimpleRAG.t) :=
  (embedder <~ TextEmbedder.init w
       "sentence-transformers/paraphrase-MiniLM-L6-v2" huggingface_token ;;
   match DocumentProcessor.process_documents w
           (DocumentProcessor.init documents_dir embedder) with
   | (Raise e, _) => if isinstance_ValueError e then Ok None else Raise e
   | (Ok _, processor) =>
       dimension <~ SimpleRAG.first_dimension processor ;;
       match QdrantIndex.add_embeddings
               (DocumentProcessor.document_embeddings processor)
               (DocumentProcessor.document_titles processor)
               (QdrantIndex.init dimension) with
       | (Raise e, _) => Raise e
       | (Ok _, index) =>
           Ok (Some (SimpleRAG.init embedder processor index api_key api_url
                       None None None None (Some max_tokens)))
       end
   end)%res.

(** The query step of [main.py] and [app.py]: [retrieve], then
    [generate_response] on what was retrieved. *)
Definition answer (w : World) (rag : SimpleRAG.t) (query : string)
  : res (option json * list string) :=
  (rt <~ SimpleRAG.retrieve w rag query ;;
   let '(retrieved_content, retrieved_titles) := rt in
   response <~ SimpleRAG.generate_response w rag query retrieved_content ;;
   Ok (response, retrieved_titles))%res.

(** ** A sample world

    Three directories, a stub embedder with hand-made vectors, and an
    endpoint whose behaviour is the parameter [post]. *)

Module Sample.

Definition listing (path : string) : res (list string) :=
  if String.eqb path "docs" then Ok ["a.txt"; "notes.md"; "b.txt"]
  else if String.eqb path "empty" then Ok ["readme.md"]
  else if String.eqb path "bad" then Ok ["c.txt"; "bad.txt"]
  else Raise (OSError "No such file or directory").

Definition files (path : string) : res string :=
  if String.eqb path "docs/a.txt" then Ok "cats are mammals"
  else if String.eqb path "docs/b.txt" then Ok "rockets use fuel"
  else if String.eqb path "bad/c.txt" then Ok "c"
  else if String.eqb path "bad/bad.txt" then Raise UnicodeDecodeError
  else Raise (OSError "No such file or directory").

Definition stub_model (text : string) : res ndarray :=
  if String.eqb text "cats are mammals" then Ok (Arr2 [[1; 0]%Q])
  else if String.eqb text "rockets use fuel" then Ok (Arr2 [[0; 1]%Q])
  else if String.eqb text "tell me about pets" then Ok (Arr2 [[2; 1]%Q])
  else Ok (Arr2 [[1; 1]%Q]).

Definition world (post : http_result) : World :=
  {| os_listdir := listing; open_read := files;
     from_pretrained := fun _ _ => Ok tt;
     model_forward := stub_model;
     requests_post := fun _ _ _ => post |}.

Definition reply : http_result :=
  HttpResponse 200
    (Some (JObj [("message",
                  JObj [("role", JStr "assistant"); ("content", JStr "Cats.")])])).

Definition build (w : World) (dir : string) : res (option SimpleRAG.t) :=
  create_simple_rag w dir "key" "http://localhost:11434/api/chat" "hf"
                    "mistral" (7 # 10)%Q (1 # 2)%Q 800.

Definition embedder : TextEmbedder.t :=
  {| TextEmbedder.model_name := "sentence-transformers/paraphrase-MiniLM-L6-v2";
     TextEmbedder.token := "hf" |}.

(** The orchestrator [build (world post) "docs"] returns. *)
Definition rag : SimpleRAG.t :=
  SimpleRAG.init embedder
    {| DocumentProcessor.documents_dir := "docs";
       DocumentProcessor.embedder := embedder;
       DocumentProcessor.document_titles := ["a.txt"; "b.txt"];
       DocumentProcessor.document_embeddings :=
         [Arr2 [[1; 0]%Q]; Arr2 [[0; 1]%Q]] |}
    {| QdrantIndex.collection_name := "documents";
       QdrantIndex.client :=
         {| Qdrant.size := 2;
            Qdrant.points :=
              [ {| Qdrant.id := 0; Qdrant.vector := [1; 0]%Q; Qdrant.title := "a.txt" |};
                {| Qdrant.id := 1; Qdrant.vector := [0; 1]%Q; Qdrant.title := "b.txt" |} ] |} |}
    "key" "http://localhost:11434/api/chat"
    None None None None (Some 800).

End Sample.

(** ** main.py *)

Module Main.

(** The process [main] runs in: the environment variables, the value of
    [--documents_dir] on the command line ([None] when the option is
    missing) and the line [input] reads ([None] at end of input). *)
Record Process := {
  getenv : string -> option string;
  documents_dir_arg : option string;
  input : option string
}.

(** What [main] writes with [print]: ["Response:"] with the response,
    and ["Retrieved Titles:"] with the titles. *)
Inductive printed :=
| PrintResponse (response : json)
| PrintTitles (titles : list string).

(** How the run ends: [main] returns, the process exits with a status
    ([exit(1)], or 2 from [argparse]), or an exception leaves [main]. *)
Inductive termination :=
| Returned
| Exited (code : nat)
| Uncaught (e : exn)
| UncaughtEOFError.

(** The truth value of an object that came out of [response.json()]. *)
Definition truthy (v : json) : bool :=
  match v with
  | JNull => false
  | JBool b => b
  | JNum q => negb (Qeq_bool q 0)
  | JStr s => negb (String.eqb s "")
  | JArr l => match l with [] => false | _ :: _ => true end
  | JObj fields => match fields with [] => false | _ :: _ => true end
  end.

Definition required_env_vars : list string :=
  ["API_KEY"; "API_URL"; "HUGGINGFACE_TOKEN"].

(** [not os.getenv(var)]: unset, or set to the empty string. *)
Definition unset (p : Process) (var : string) : bool :=
  match getenv p var with
  | None => true
  | Some v => String.eqb v ""
  end.

Definition missing_vars (p : Process) : list string :=
  filter (unset p) required_env_vars.

(** The f-string of the [EnvironmentError]. *)
Definition env_error_msg (missing : list string) : string :=
  "Required environment variables are not set: " ++ String.concat ", " missing.

(** A variable that passed the check, as the string it holds. *)
Definition env_value (p : Process) (var : string) : string :=
  match getenv p var with Some v => v | None => "" end.

(** [except Exception as e]: the error is logged and [main] goes on to
    its end; anything that is no [Exception] leaves [main]. *)
Definition handled (e : exn) : list printed * termination :=
  if isinstance_Exception e then ([], Returned) else ([], Uncaught e).

(** [main].  [EnvironmentError] is [OSError]; [create_simple_rag] gets
    the three credentials and its own defaults for the rest. *)
Definition main (w : World) (p : Process) : list printed * termination :=
  match missing_vars p with
  | _ :: _ => ([], Uncaught (OSError (env_error_msg (missing_vars p))))
  | [] =>
      match documents_dir_arg p with
      | None => ([], Exited 2)
      | Some documents_dir =>
          match create_simple_rag w documents_dir
                  (env_value p "API_KEY") (env_value p "API_URL")
                  (env_value p "HUGGINGFACE_TOKEN")
                  "llama3.2" (1 # 10)%Q (95 # 100)%Q 3000 with
          | Raise e => ([], Uncaught e)
          | Ok None => ([], Exited 1)
          | Ok (Some simple_rag) =>
              match input p with
              | None => ([], UncaughtEOFError)
              | Some user_query =>
                  match SimpleRAG.retrieve w simple_rag user_query with
                  | Raise e => handled e
                  | Ok (retrieved_content, retrieved_titles) =>
                      match SimpleRAG.generate_response w simple_rag
                              user_query retrieved_content with
                      | Raise e => handled e
                      | Ok response =>
                          ((match response with
                            | Some v => if truthy v then [PrintResponse v] else []
                            | None => []
                            end) ++ [PrintTitles retrieved_titles],
                           Returned)
                      end
                  end
              end
          end
      end
  end.

End Main.

(** ** utils.py *)

Module Utils.

(** What can leave [fetch_ollama_models]: nothing in it is caught. *)
Inductive raised :=
| RequestException
| JSONDecodeError
| AttributeError
| Py (e : exn).

(** [v.get(key, default)]: only a dict has [get]. *)
Definition get_default (v : json) (key : string) (d : json) : option json :=
  match v with
  | JObj fields =>
      Some (match assoc_get key fields with Some x => x | None => d end)
  | _ => None
  end.

(** [for model in v]: a list gives its items, a dict its keys, a string
    its characters; nothing else can be iterated. *)
Definition iterate (v : json) : option (list json) :=
  match v with
  | JArr l => Some l
  | JObj fields => Some (map (fun kv => JStr (fst kv)) fields)
  | JStr s => Some (map (fun c => JStr (String c EmptyString)) (list_ascii_of_string s))
  | _ => None
  end.

(** [[model["name"] for model in models]], item by item. *)
Fixpoint names_of (models : list json) : res (list json) :=
  match models with
  | [] => Ok []
  | model :: rest =>
      (name <~ getitem model "name" ;;
       names <~ names_of rest ;;
       Ok (name :: names))%res
  end.

Definition fetch_error : string := "Failed to fetch models from Ollama API.".

(** [fetch_ollama_models]: the names, or what was raised, together with
    the messages handed to [st.error]. *)
Definition fetch_ollama_models
           (requests_get : string -> list (string * string) -> http_result)
           (api_url api_key : string)
  : (list json + raised) * list string :=
  let headers := [("Authorization", ("Bearer " ++ api_key)%string)] in
  match requests_get (api_url ++ "/api/tags")%string headers with
  | NoResponse => (inr RequestException, [])
  | HttpResponse status_code body =>
      if Nat.eqb status_code 200 then
        match body with
        | None => (inr JSONDecodeError, [])
        | Some v =>
            match get_default v "models" (JArr []) with
            | None => (inr AttributeError, [])
            | Some models =>
                match iterate models with
                | None => (inr (Py TypeError), [])
                | Some l =>
                    match names_of l with
                    | Ok names => (inl names, [])
                    | Raise e => (inr (Py e), [])
                    end
                end
            end
        end
      else (inl [], [fetch_error])
  end.

End Utils.

(** ** app.py *)

Module App.

(** A file of [st.file_uploader]. *)
Record UploadedFile := { name : string; buffer : string }.

(** [d[key] = value] on a dict kept as its items in insertion order: a
    key that is present keeps its place and takes the new value. *)
Fixpoint setitem {V} (key : string) (value : V) (d : list (string * V))
  : list (string * V) :=
  match d with
  | [] => [(key, value)]
  | (k, v) :: d' =>
      if String.eqb k key then (k, value) :: d'
      else (k, v) :: setitem key value d'
  end.

(** [{file.name: file for file in uploaded_files}.values()] *)
Definition unique_files (uploaded_files : list UploadedFile) : list UploadedFile :=
  map snd (fold_left (fun d file => setitem (name file) file d) uploaded_files []).

End App.

(** ** Vocabulary of the statements *)

Section Vocabulary.
Variable w : World.

(** What one pass over a listing produces, as a pure function: the
    documents embedded before the first failure, and that failure. *)
Fixpoint scan (dir : string) (names : list string)
  : list (string * ndarray) * option exn :=
  match names with
  | [] => ([], None)
  | filename :: rest =>
      if endswith filename ".txt" then
        match open_read w (os_path_join dir filename) with
        | Raise e => ([], Some e)
        | Ok text =>
            match model_forward w text with
            | Raise e => ([], Some e)
            | Ok emb =>
                let (l, r) := scan dir rest in ((filename, emb) :: l, r)
            end
        end
      else scan dir rest
  end.

Definition extend (p : DocumentProcessor.t) (l : list (string * ndarray))
  : DocumentProcessor.t :=
  {| DocumentProcessor.documents_dir := DocumentProcessor.documents_dir p;
     DocumentProcessor.embedder := DocumentProcessor.embedder p;
     DocumentProcessor.document_titles :=
       DocumentProcessor.document_titles p ++ map fst l;
     DocumentProcessor.document_embeddings :=
       DocumentProcessor.document_embeddings p ++ map snd l |}.

Definition outcome (o : option exn) : res unit :=
  match o with None => Ok tt | Some e => Raise e end.

(** [emb] is the embedding of what the file called [title] holds in some
    directory. *)
Definition produced (title : string) (emb : ndarray) : Prop :=
  exists dir text,
    open_read w (os_path_join dir title) = Ok text /\
    model_forward w text = Ok emb.

(** The invariant of a processor: titles and embeddings have the same
    length and correspond position by position. *)
Definition paired (p : DocumentProcessor.t) : Prop :=
  Forall2 produced (DocumentProcessor.document_titles p)
                   (DocumentProcessor.document_embeddings p).

(** The supported files of a listing, in listing order. *)
Definition txt_files (names : list string) : list string :=
  filter (fun f => endswith f ".txt") names.

(** Each [.txt] file of the listing can be read and embedded. *)
Definition readable (dir : string) (names : list string) : Prop :=
  forall f, In f names -> endswith f ".txt" = true ->
    exists text emb,
      open_read w (os_path_join dir f) = Ok text /\
      model_forward w text = Ok emb.

(** The embedder answers with arrays of shape [(1, D)]. *)
Definition fixed_dimension (D : nat) : Prop :=
  forall text emb, model_forward w text = Ok emb ->
    exists row, emb = Arr2 [row] /\ List.length row = D.

(** The completion call fails: no response, a 4xx or 5xx status, or a
    body that is not JSON. *)
Definition completion_fails (r : http_result) : Prop :=
  match r with
  | NoResponse => True
  | HttpResponse status body =>
      (400 <= status < 600) \/ body = None
  end.

End Vocabulary.

(** The point stored under an id. *)
Definition find_by_id (i : nat) (l : list Qdrant.PointStruct)
  : option Qdrant.PointStruct :=
  find (fun p => Nat.eqb (Qdrant.id p) i) l.

(** The point [add_embeddings] builds for position [i]. *)
Definition point_of (i : nat) (e : ndarray) (t : string) : Qdrant.PointStruct :=
  {| Qdrant.id := i; Qdrant.vector := tolist (flatten e); Qdrant.title := t |}.

(** The similarity of a stored point to the query [q]. *)
Definition rank_of (q : list Q) (p : Qdrant.PointStruct) : Q :=
  Qdrant.cosine_rank q (Qdrant.vector p).

(** [a] is at least as similar to [q] as [b]. *)
Definition above (q : list Q) (a b : Qdrant.PointStruct) : Prop :=
  (rank_of q b <= rank_of q a)%Q.

(** Hits are in order of non-increasing similarity to [q]. *)
Definition ranked (q : list Q) (hits : list Qdrant.PointStruct) : Prop :=
  StronglySorted (above q) hits.

(** The request [generate_response] posts for a query. *)
Definition request_of (rag : SimpleRAG.t) (query retrieved_content : string)
  : payload :=
  SimpleRAG._create_payload rag (SimpleRAG.make_prompt query retrieved_content).

(** The prompt as the specification words it: the texts joined by line
    feeds between the two fixed lines. *)
Definition spec_prompt (texts : list string) (query : string) : string :=
  "Based on the following documents:" ++ nl ++ String.concat nl texts
    ++ nl ++ "Answer the query: " ++ query.

(** The texts of the retrieved documents, each followed by a line feed. *)
Fixpoint terminated (texts : list string) : string :=
  match texts with
  | [] => ""
  | text :: rest => text ++ nl ++ terminated rest
  end.

(** [texts] are what the files called [titles] hold in [dir]. *)
Definition contents_of (w : World) (dir : string)
           (titles texts : list string) : Prop :=
  Forall2 (fun title text => open_read w (os_path_join dir title) = Ok text)
          titles texts.

(** The headers [EndPoint] sends. *)
Definition headers_of (rag : SimpleRAG.t) : list (string * string) :=
  EndPoint.headers (EndPoint.init (SimpleRAG.api_key rag) (SimpleRAG.api_url rag)).

(** The prompt claim in the specification's words. *)
Definition prompt_as_stated : Prop :=
  forall (w : World) (rag : SimpleRAG.t) (query retrieved : string)
         (titles texts : list string),
    SimpleRAG.retrieve w rag query = Ok (retrieved, titles) ->
    contents_of w (DocumentProcessor.documents_dir (SimpleRAG.processor rag))
                titles texts ->
    p_messages (request_of rag query retrieved) =
    [ {| role := "system";
         content := "You are a helpful assistant named DocumentFinder" |};
      {| role := "user"; content := spec_prompt texts query |} ].

(** An array of shape [(1, D)]. *)
Definition shaped (D : nat) (e : ndarray) : Prop :=
  exists row, e = Arr2 [row] /\ List.length row = D.

(** The name [create_simple_rag] loads the embedding model under. *)
Definition embedding_model : string :=
  "sentence-transformers/paraphrase-MiniLM-L6-v2".

(** The index both [create_simple_rag] and [update_documents] end with
    when nothing fails. *)
Definition index_of (D : nat) (p : DocumentProcessor.t) : QdrantIndex.t :=
  {| QdrantIndex.collection_name := "documents";
     QdrantIndex.client :=
       {| Qdrant.size := D;
          Qdrant.points :=
            QdrantIndex.make_points (DocumentProcessor.document_embeddings p)
                                    (DocumentProcessor.document_titles p) |} |}.

(** The states of a processor: what its constructor returns, what a call
    of [process_documents] leaves behind, whether it returned or raised,
    and what an assignment to [documents_dir] gives. *)
Inductive reachable (w : World) : DocumentProcessor.t -> Prop :=
| reachable_init dir e :
    reachable w (DocumentProcessor.init dir e)
| reachable_process p :
    reachable w p ->
    reachable w (snd (DocumentProcessor.process_documents w p))
| reachable_set_dir dir p :
    reachable w p ->
    reachable w (DocumentProcessor.set_documents_dir dir p).


(** The rebuild claim in the specification's words: when processing
    fails the error reaches the caller and the orchestrator is as it was
    before the call. *)
Definition rebuild_failure_as_stated : Prop :=
  forall (w : World) (rag : SimpleRAG.t) (dir : string) (e : exn)
         (p' : DocumentProcessor.t),
    DocumentProcessor.process_documents w
      (DocumentProcessor.set_documents_dir dir (SimpleRAG.processor rag))
    = (Raise e, p') ->
    SimpleRAG.update_documents w dir rag = (Raise e, rag).

(** No two stored entries hold the same vector. *)
Definition no_exact_duplicates (idx : QdrantIndex.t) : Prop :=
  NoDup (map Qdrant.vector (Qdrant.points (QdrantIndex.client idx))).

(** The search claim in the specification's words, for one index, one
    query and one [top_n]; its last part is read with what the
    specification assumes for it: [top_n] is at least 1 and there are no
    exact duplicates. *)
Definition search_as_stated (idx : QdrantIndex.t) (v : ndarray) (top_n : nat)
  : Prop :=
  let q := tolist (flatten v) in
  let stored := Qdrant.points (QdrantIndex.client idx) in
  exists hits,
    QdrantIndex.search idx v top_n = Ok (map Qdrant.title hits) /\
    List.length hits <= top_n /\
    incl hits stored /\
    ranked q hits /\
    (List.length stored < top_n -> Permutation hits stored) /\
    (1 <= top_n -> no_exact_duplicates idx ->
     forall p, In p stored -> Qdrant.vector p = q ->
       hd_error (map Qdrant.title hits) = Some (Qdrant.title p)).

(** An index of two different vectors of one direction. *)
Definition parallel_index : QdrantIndex.t :=
  {| QdrantIndex.collection_name := "documents";
     QdrantIndex.client :=
       {| Qdrant.size := 2;
          Qdrant.points :=
            [ {| Qdrant.id := 0; Qdrant.vector := [1; 0]%Q; Qdrant.title := "a.txt" |};
              {| Qdrant.id := 1; Qdrant.vector := [2; 0]%Q; Qdrant.title := "b.txt" |} ] |} |}.

(** ** Further sample data *)

Module Fixtures.

(** A process with the three variables set, started on [docs]. *)
Definition process : Main.Process :=
  {| Main.getenv := fun var =>
       if String.eqb var "API_KEY" then Some "key"
       else if String.eqb var "API_URL" then Some "http://localhost:11434/api/chat"
       else if String.eqb var "HUGGINGFACE_TOKEN" then Some "hf"
       else None;
     Main.documents_dir_arg := Some "docs";
     Main.input := Some "tell me about pets" |}.

(** The same with [API_URL] set to the empty string and no token. *)
Definition process_without_url : Main.Process :=
  {| Main.getenv := fun var =>
       if String.eqb var "API_KEY" then Some "key"
       else if String.eqb var "API_URL" then Some ""
       else None;
     Main.documents_dir_arg := Some "docs";
     Main.input := Some "tell me about pets" |}.

(** The same as [process], started on the directory without text
    files. *)
Definition process_on_empty : Main.Process :=
  {| Main.getenv := Main.getenv process;
     Main.documents_dir_arg := Some "empty";
     Main.input := Some "tell me about pets" |}.

(** The orchestrator [main] builds for [process]. *)
Definition rag : SimpleRAG.t :=
  SimpleRAG.init Sample.embedder (SimpleRAG.processor Sample.rag)
    (SimpleRAG.index Sample.rag) "key" "http://localhost:11434/api/chat"
    None None None None (Some 3000).

(** An orchestrator put together by hand whose processor holds one
    embedding of three components. *)
Definition uneven_rag : SimpleRAG.t :=
  SimpleRAG.init Sample.embedder
    {| DocumentProcessor.documents_dir := "old";
       DocumentProcessor.embedder := Sample.embedder;
       DocumentProcessor.document_titles := ["wide.txt"];
       DocumentProcessor.document_embeddings := [Arr2 [[1; 2; 3]%Q]] |}
    {| QdrantIndex.collection_name := "documents";
       QdrantIndex.client :=
         {| Qdrant.size := 3;
            Qdrant.points :=
              [ {| Qdrant.id := 0; Qdrant.vector := [1; 2; 3]%Q;
                   Qdrant.title := "wide.txt" |} ] |} |}
    "key" "http://localhost:11434/api/chat" None None None None None.

(** An orchestrator put together by hand over a directory [old] with one
    document. *)
Definition old_rag : SimpleRAG.t :=
  SimpleRAG.init Sample.embedder
    {| DocumentProcessor.documents_dir := "old";
       DocumentProcessor.embedder := Sample.embedder;
       DocumentProcessor.document_titles := ["old.txt"];
       DocumentProcessor.document_embeddings := [Arr2 [[1; 1]%Q]] |}
    {| QdrantIndex.collection_name := "documents";
       QdrantIndex.client :=
         {| Qdrant.size := 2;
            Qdrant.points :=
              [ {| Qdrant.id := 0; Qdrant.vector := [1; 1]%Q;
                   Qdrant.title := "old.txt" |} ] |} |}
    "key" "http://localhost:11434/api/chat" None None None None None.

(** The sample world with an embedder that fails on one text. *)
Definition moody_world : World :=
  {| os_listdir := Sample.listing; open_read := Sample.files;
     from_pretrained := fun _ _ => Ok tt;
     model_forward := fun text =>
       if String.eqb text "tell me about pets"
       then Raise (RuntimeError "tokenizer failure")
       else Sample.stub_model text;
     requests_post := fun _ _ _ => Sample.reply |}.

(** A reply whose content is the empty string. *)
Definition empty_reply : http_result :=
  HttpResponse 200 (Some (JObj [("message", JObj [("content", JStr "")])])).

(** A model listing of the Ollama API. *)
Definition tags : json :=
  JObj [("models", JArr [ JObj [("name", JStr "llama3.2"); ("size", JNum (2 # 1))];
                          JObj [("name", JStr "mistral")] ])].

(** A listing whose second entry has no name. *)
Definition broken_tags : json :=
  JObj [("models", JArr [ JObj [("name", JStr "llama3.2")];
                          JObj [("model", JStr "mistral")];
                          JObj [("name", JStr "phi3")] ])].

Definition uploads : list App.UploadedFile :=
  [ {| App.name := "a.txt"; App.buffer := "first" |};
    {| App.name := "b.txt"; App.buffer := "other" |};
    {| App.name := "a.txt"; App.buffer := "second" |} ].

End Fixtures.

(** [main] gets as far as an orchestrator: the variables are set, the
    directory is given and [create_simple_rag] returns [rag]. *)
Definition main_builds (w : World) (p : Main.Process) (rag : SimpleRAG.t) : Prop :=
  Main.missing_vars p = [] /\
  exists documents_dir,
    Main.documents_dir_arg p = Some documents_dir /\
    create_simple_rag w documents_dir
      (Main.env_value p "API_KEY") (Main.env_value p "API_URL")
      (Main.env_value p "HUGGINGFACE_TOKEN")
      "llama3.2" (1 # 10)%Q (95 # 100)%Q 3000 = Ok (Some rag).

(** The dict the comprehension of [unique_files] has built after the
    files [l], starting from the items [d]. *)
Definition collect (l : list App.UploadedFile) (d : list (string * App.UploadedFile))
  : list (string * App.UploadedFile) :=
  fold_left (fun d file => App.setitem (App.name file) file d) l d.

(** Every key occurs once and is the name of the file stored under it. *)
Definition keyed (d : list (string * App.UploadedFile)) : Prop :=
  NoDup (map fst d) /\ Forall (fun kv => App.name (snd kv) = fst kv) d.

(** * Properties *)

(** Unfolds the combinators of the monad in the goal. *)
Ltac py_run :=
  unfold Py.bind, Py.modify, Py.try_except, Py.zoom, Py.ret, Py.get,
    Py.lift, Py.raise.

(** ** Document processing *)

Section ProcessorFacts.
Variable w : World.

Import DocumentProcessor.

Lemma extend_nil p : extend p [] = p.
Proof. destruct p; unfold extend; simpl. now rewrite !app_nil_r. Qed.

Lemma extend_cons p f e l :
  extend (append_document e f p) l = extend p ((f, e) :: l).
Proof. unfold extend, append_document; simpl. now rewrite <- !app_assoc. Qed.

Lemma process_files_scan names : forall p,
  process_files w names p =
  (outcome (snd (scan w (documents_dir p) names)),
   extend p (fst (scan w (documents_dir p) names))).
Proof.
  induction names as [|f rest IH]; intro p; simpl.
  - now rewrite extend_nil.
  - unfold Py.bind at 1. unfold process_file.
    destruct (endswith f ".txt").
    + unfold Py.bind, Py.get, Py.lift, Py.modify, TextEmbedder.embed_text.
      destruct (open_read w (os_path_join (documents_dir p) f)) as [text|e]; simpl.
      * destruct (model_forward w text) as [emb|e]; simpl.
        -- rewrite IH. simpl.
           destruct (scan w (documents_dir p) rest) as [l r]; simpl.
           now rewrite extend_cons.
        -- now rewrite extend_nil.
      * now rewrite extend_nil.
    + unfold Py.ret. apply IH.
Qed.

Lemma scan_produced dir names :
  Forall (fun te => produced w (fst te) (snd te)) (fst (scan w dir names)).
Proof.
  induction names as [|f rest IH]; simpl; [constructor|].
  destruct (endswith f ".txt"); [|exact IH].
  destruct (open_read w (os_path_join dir f)) as [text|e] eqn:Hr; [|constructor].
  destruct (model_forward w text) as [emb|e] eqn:He; [|constructor].
  destruct (scan w dir rest) as [l r]; simpl in *.
  constructor; [|exact IH]. now exists dir, text.
Qed.

Lemma scan_readable dir names :
  readable w dir names ->
  snd (scan w dir names) = None /\
  map fst (fst (scan w dir names)) = txt_files names.
Proof.
  induction names as [|f rest IH]; intro H; simpl; [now split|].
  assert (Hrest : readable w dir rest) by (intros g Hg; apply H; now right).
  specialize (IH Hrest). unfold txt_files in *. simpl.
  destruct (endswith f ".txt") eqn:E; [|exact IH].
  destruct (H f (or_introl eq_refl) E) as (text & emb & Hr & He).
  rewrite Hr, He. destruct (scan w dir rest) as [l r]; simpl in *.
  destruct IH as [-> ->]. now split.
Qed.

Lemma process_documents_scan p :
  process_documents w p =
  match os_listdir w (documents_dir p) with
  | Raise e => (Raise e, p)
  | Ok names =>
      let s := scan w (documents_dir p) names in
      let p' := extend p (fst s) in
      match snd s with
      | Some e => (Raise e, p')
      | None =>
          match document_embeddings p' with
          | [] => (Raise (ValueError no_embeddings_msg), p')
          | _ :: _ => (Ok tt, p')
          end
      end
  end.
Proof.
  unfold process_documents. py_run.
  destruct (os_listdir w (documents_dir p)) as [names|e]; [|reflexivity].
  rewrite process_files_scan.
  destruct (scan w (documents_dir p) names) as [l [e|]]; simpl; [reflexivity|].
  destruct (document_embeddings p ++ map snd l); reflexivity.
Qed.

(** A pass, failing or not, only appends what [scan] collected. *)
Lemma process_documents_extends p :
  exists l, snd (process_documents w p) = extend p l /\
            Forall (fun te => produced w (fst te) (snd te)) l.
Proof.
  rewrite process_documents_scan.
  destruct (os_listdir w (documents_dir p)) as [names|e].
  - exists (fst (scan w (documents_dir p) names)). split; [|apply scan_produced].
    cbv zeta. destruct (snd (scan w (documents_dir p) names)); [reflexivity|].
    destruct (document_embeddings _); reflexivity.
  - exists []. split; [now rewrite extend_nil | constructor].
Qed.

Lemma paired_extend p l :
  paired w p -> Forall (fun te => produced w (fst te) (snd te)) l ->
  paired w (extend p l).
Proof.
  unfold paired, extend; simpl. intros Hp Hl.
  apply Forall2_app; [exact Hp|].
  induction Hl; simpl; constructor; auto.
Qed.

End ProcessorFacts.

(** ** The collection *)

Section CollectionFacts.

Import Qdrant.

Lemma find_upsert_same p l : find_by_id (id p) (upsert_point p l) = Some p.
Proof.
  unfold find_by_id.
  induction l as [|x l IH]; simpl.
  - now rewrite Nat.eqb_refl.
  - destruct (Nat.eqb (id x) (id p)) eqn:E; simpl.
    + now rewrite Nat.eqb_refl.
    + now rewrite E.
Qed.

Lemma find_upsert_other p l i :
  id p <> i -> find_by_id i (upsert_point p l) = find_by_id i l.
Proof.
  unfold find_by_id. intro Hne.
  apply Nat.eqb_neq in Hne.
  induction l as [|x l IH]; simpl.
  - now rewrite Hne.
  - destruct (Nat.eqb (id x) (id p)) eqn:E; simpl.
    + apply Nat.eqb_eq in E. rewrite E, Hne. reflexivity.
    + now rewrite IH.
Qed.

Lemma upsert_point_new p l :
  ~ In (id p) (map id l) -> upsert_point p l = l ++ [p].
Proof.
  induction l as [|x l IH]; simpl; intro H; [reflexivity|].
  destruct (Nat.eqb (id x) (id p)) eqn:E.
  - apply Nat.eqb_eq in E. tauto.
  - rewrite IH; tauto.
Qed.

Lemma upsert_all_other pts : forall acc i,
  ~ In i (map id pts) -> find_by_id i (upsert_all pts acc) = find_by_id i acc.
Proof.
  induction pts as [|x pts IH]; simpl; intros acc i H; [reflexivity|].
  unfold upsert_all in *; simpl.
  rewrite IH by tauto. apply find_upsert_other. tauto.
Qed.

Lemma upsert_all_in pts : forall acc p,
  NoDup (map id pts) -> In p pts ->
  find_by_id (id p) (upsert_all pts acc) = Some p.
Proof.
  induction pts as [|x pts IH]; simpl; intros acc p Hnd Hin; [contradiction|].
  inversion Hnd as [|? ? Hx Hnd']; subst.
  unfold upsert_all in *; simpl.
  destruct Hin as [->|Hin].
  - rewrite upsert_all_other by exact Hx. apply find_upsert_same.
  - now apply IH.
Qed.

Lemma upsert_all_new pts : forall acc,
  NoDup (map id pts) ->
  (forall p, In p pts -> ~ In (id p) (map id acc)) ->
  upsert_all pts acc = acc ++ pts.
Proof.
  induction pts as [|x pts IH]; simpl; intros acc Hnd Hfresh.
  - now rewrite app_nil_r.
  - inversion Hnd as [|? ? Hx Hnd']; subst.
    unfold upsert_all in *; simpl.
    rewrite upsert_point_new by (apply Hfresh; now left).
    rewrite IH; [now rewrite <- app_assoc | exact Hnd' |].
    intros p Hp. rewrite map_app, in_app_iff. simpl.
    intros [H|[H|[]]].
    + apply (Hfresh p); [now right | exact H].
    + apply Hx. rewrite H. now apply in_map.
Qed.

End CollectionFacts.

Section IndexFacts.

Import QdrantIndex.

Lemma enumerate_from_fst {A} (l : list A) : forall start,
  map fst (enumerate_from start l) = seq start (List.length l).
Proof.
  induction l as [|x l IH]; intro start; simpl; [reflexivity|].
  now rewrite IH.
Qed.

Lemma enumerate_from_snd {A} (l : list A) : forall start,
  map snd (enumerate_from start l) = l.
Proof.
  induction l as [|x l IH]; intro start; simpl; [reflexivity|].
  now rewrite IH.
Qed.

Lemma enumerate_from_nth {A} (l : list A) : forall start i x,
  nth_error l i = Some x ->
  nth_error (enumerate_from start l) i = Some (start + i, x).
Proof.
  induction l as [|y l IH]; intros start [|i] x H; simpl in *; try discriminate.
  - injection H as ->. now rewrite Nat.add_0_r.
  - rewrite (IH (S start) i x H). f_equal. f_equal. lia.
Qed.

Lemma combine_nth_error {A B} (l : list A) : forall (l' : list B) i a b,
  nth_error l i = Some a -> nth_error l' i = Some b ->
  nth_error (combine l l') i = Some (a, b).
Proof.
  induction l as [|x l IH]; intros [|y l'] [|i] a b Ha Hb;
    simpl in *; try discriminate.
  - now injection Ha as ->; injection Hb as ->.
  - now apply IH.
Qed.

Lemma make_points_ids es ts :
  map Qdrant.id (make_points es ts) = seq 0 (List.length (combine es ts)).
Proof.
  unfold make_points. rewrite map_map.
  rewrite <- enumerate_from_fst.
  apply map_ext. now intros [i [e t]].
Qed.

Lemma make_points_length es ts :
  List.length (make_points es ts) = List.length (combine es ts).
Proof.
  rewrite <- (length_map Qdrant.id), make_points_ids. apply length_seq.
Qed.

Lemma make_points_nth es ts i e t :
  nth_error es i = Some e -> nth_error ts i = Some t ->
  nth_error (make_points es ts) i = Some (point_of i e t).
Proof.
  intros He Ht. unfold make_points.
  rewrite nth_error_map.
  rewrite (enumerate_from_nth _ 0 i (combine_nth_error _ _ _ He Ht)).
  reflexivity.
Qed.

Lemma make_points_titles es ts :
  map Qdrant.title (make_points es ts) = map snd (combine es ts).
Proof.
  unfold make_points. rewrite map_map.
  rewrite <- (enumerate_from_snd (combine es ts) 0) at 2.
  rewrite map_map. apply map_ext. now intros [i [e t]].
Qed.

Lemma make_points_NoDup es ts : NoDup (map Qdrant.id (make_points es ts)).
Proof. rewrite make_points_ids. apply seq_NoDup. Qed.

(** On a fresh index a successful [add_embeddings] stores exactly the
    points it built, in order. *)
Lemma add_embeddings_fresh d es ts :
  forallb (fun p => Nat.eqb (List.length (Qdrant.vector p)) d) (make_points es ts) = true ->
  add_embeddings es ts (init d) =
  (Ok tt, {| collection_name := "documents";
             client := {| Qdrant.size := d; Qdrant.points := make_points es ts |} |}).
Proof.
  intro H. unfold add_embeddings, Qdrant.upsert, init; simpl. rewrite H.
  rewrite upsert_all_new; [reflexivity | apply make_points_NoDup | intros p _ []].
Qed.

Lemma make_points_dimension d es ts :
  Forall (fun e => List.length (tolist (flatten e)) = d) es ->
  forallb (fun p => Nat.eqb (List.length (Qdrant.vector p)) d) (make_points es ts) = true.
Proof.
  intro H. apply forallb_forall. intros p Hp.
  apply In_nth_error in Hp. destruct Hp as [i Hi].
  unfold make_points in Hi. rewrite nth_error_map in Hi.
  destruct (nth_error (enumerate_from 0 (combine es ts)) i) as [[j [e t]]|] eqn:E;
    [|discriminate].
  injection Hi as <-. simpl.
  apply nth_error_In in E.
  assert (Hin : In (e, t) (combine es ts)).
  { apply (in_map snd) in E. now rewrite enumerate_from_snd in E. }
  apply in_combine_l in Hin.
  rewrite Forall_forall in H. apply Nat.eqb_eq. now apply H.
Qed.

End IndexFacts.

(** ** Ranking *)

Section RankingFacts.

Import Qdrant.
Local Open Scope Q_scope.

Lemma norm2_nonneg u : 0 <= norm2 u.
Proof.
  unfold norm2. induction u as [|a u IH]; cbn [dot]; [lra|nra].
Qed.

Lemma firstn_subset {A} (n : nat) : forall (l : list A) x,
  In x (firstn n l) -> In x l.
Proof.
  induction n as [|n IH]; intros [|y l] x H; simpl in *; try contradiction.
  destruct H as [H|H]; [now left | right; now apply IH].
Qed.

Lemma square_nonneg (x : Q) : 0 <= x * x.
Proof. nra. Qed.

(** The quadratic form behind the Cauchy-Schwarz inequality is never
    negative; [dot] stops at the shorter vector, the norms do not. *)
Lemma quadratic_form_nonneg u : forall v t s,
  0 <= norm2 u * (t * t) - 2 * dot u v * (t * s) + norm2 v * (s * s).
Proof.
  induction u as [|a u IH]; intros [|b v] t s.
  - unfold norm2; cbn [dot]. nra.
  - pose proof (norm2_nonneg (b :: v)). unfold norm2 in *; cbn [dot] in *. nra.
  - pose proof (norm2_nonneg (a :: u)). unfold norm2 in *; cbn [dot] in *. nra.
  - specialize (IH v t s). unfold norm2 in *; cbn [dot].
    pose proof (square_nonneg (a * t - b * s)).
    nra.
Qed.

Lemma cauchy_schwarz u v : dot u v * dot u v <= norm2 u * norm2 v.
Proof.
  pose proof (norm2_nonneg u) as Hu.
  pose proof (norm2_nonneg v) as Hv.
  destruct (Qlt_le_dec 0 (norm2 u)) as [Hpos|Hzero].
  - pose proof (quadratic_form_nonneg u v (dot u v) (norm2 u)) as H.
    assert (H' : 0 <= norm2 u * (norm2 u * norm2 v - dot u v * dot u v)) by nra.
    nra.
  - assert (Hu0 : norm2 u == 0) by lra.
    pose proof (quadratic_form_nonneg u v (norm2 v + 1) (dot u v)) as H.
    assert (Hd : dot u v * dot u v <= 0) by nra.
    nra.
Qed.

Lemma signed_square_le x : signed_square x <= x * x.
Proof.
  unfold signed_square. destruct (Qle_bool 0 x); nra.
Qed.

Lemma signed_square_nonneg x : 0 <= x -> signed_square x == x * x.
Proof.
  intro H. unfold signed_square.
  destruct (Qle_bool 0 x) eqn:E; [reflexivity|].
  apply Qle_bool_iff in H. congruence.
Qed.

(** No vector is more similar to [q] than [q] itself. *)
Lemma cosine_rank_self_max q u : cosine_rank q u <= cosine_rank q q.
Proof.
  pose proof (norm2_nonneg q) as Hq.
  pose proof (norm2_nonneg u) as Hu.
  pose proof (cauchy_schwarz q u) as Hcs.
  pose proof (signed_square_le (dot q u)) as Hss.
  unfold cosine_rank.
  destruct (Qeq_bool (norm2 q * norm2 q) 0) eqn:Eqq.
  - apply Qeq_bool_iff in Eqq.
    assert (Hq0 : norm2 q == 0) by nra.
    destruct (Qeq_bool (norm2 q * norm2 u) 0) eqn:Equ; [lra|].
    apply Qeq_bool_neq in Equ. exfalso. apply Equ. nra.
  - apply Qeq_bool_neq in Eqq.
    assert (Hqpos : 0 < norm2 q) by nra.
    assert (Hself : 1 <= signed_square (dot q q) / (norm2 q * norm2 q)).
    { apply Qle_shift_div_l; [nra|].
      rewrite signed_square_nonneg by exact Hq. unfold norm2. lra. }
    destruct (Qeq_bool (norm2 q * norm2 u) 0) eqn:Equ; [lra|].
    apply Qeq_bool_neq in Equ.
    assert (Hupos : 0 < norm2 q * norm2 u) by nra.
    apply Qle_trans with 1; [|exact Hself].
    apply Qle_shift_div_r; [exact Hupos|]. lra.
Qed.

Section Sorting.
Variable q : list Q.

Lemma insert_hit_perm p l : Permutation (insert_hit q p l) (p :: l).
Proof.
  induction l as [|y l IH]; simpl; [reflexivity|].
  destruct (Qle_bool _ _); [|reflexivity].
  rewrite IH. apply perm_swap.
Qed.

Lemma rank_hits_perm l : Permutation (rank_hits q l) l.
Proof.
  induction l as [|x l IH]; simpl; [reflexivity|].
  rewrite insert_hit_perm. now constructor.
Qed.

Lemma insert_hit_sorted p l :
  StronglySorted (above q) l -> StronglySorted (above q) (insert_hit q p l).
Proof.
  induction l as [|y l IH]; simpl; intro Hs.
  - constructor; constructor.
  - inversion Hs as [|? ? Hs' Hy]; subst.
    destruct (Qle_bool (cosine_rank q (vector p)) (cosine_rank q (vector y))) eqn:E.
    + apply Qle_bool_iff in E.
      constructor; [now apply IH|].
      apply Forall_forall. intros z Hz.
      apply (Permutation_in _ (insert_hit_perm p l)) in Hz.
      destruct Hz as [<-|Hz].
      * exact E.
      * rewrite Forall_forall in Hy. now apply Hy.
    + assert (Hlt : rank_of q y < rank_of q p).
      { apply Qnot_le_lt. intro Hle. apply Qle_bool_iff in Hle.
        unfold rank_of in Hle. congruence. }
      constructor; [exact Hs|].
      constructor; [unfold above; lra|].
      eapply Forall_impl; [|exact Hy].
      intros z Hz. unfold above in *. lra.
Qed.

Lemma rank_hits_sorted l : StronglySorted (above q) (rank_hits q l).
Proof.
  induction l as [|x l IH]; simpl; [constructor|].
  now apply insert_hit_sorted.
Qed.

Lemma firstn_sorted n : forall l,
  StronglySorted (above q) l -> StronglySorted (above q) (firstn n l).
Proof.
  induction n as [|n IH]; intros [|x l] Hs; simpl; try constructor.
  - apply IH. now inversion Hs.
  - inversion Hs as [|? ? _ Hx]; subst.
    apply Forall_forall. intros z Hz.
    rewrite Forall_forall in Hx. apply Hx.
    eapply firstn_subset; eauto.
Qed.

(** Whatever the order among equally similar points: in a ranking of
    the stored points, a point that is strictly more similar than every
    other one is the first. *)
Lemma strict_best_is_first stored hits i p :
  Permutation hits stored ->
  StronglySorted (above q) hits ->
  nth_error stored i = Some p ->
  (forall j p', j <> i -> nth_error stored j = Some p' ->
                rank_of q p' < rank_of q p) ->
  exists tl, hits = p :: tl.
Proof.
  intros Hperm Hsorted Hi Hbest.
  destruct hits as [|h tl].
  - apply Permutation_nil in Hperm. subst stored.
    destruct i; discriminate Hi.
  - exists tl. f_equal.
    assert (Hh : In h stored) by (apply (Permutation_in _ Hperm); now left).
    apply In_nth_error in Hh. destruct Hh as [j Hj].
    destruct (Nat.eq_dec j i) as [->|Hne]; [congruence|].
    pose proof (Hbest j h Hne Hj) as Hlt.
    assert (Hp : In p (h :: tl)).
    { apply (Permutation_in _ (Permutation_sym Hperm)).
      eapply nth_error_In; eauto. }
    destruct Hp as [Hp|Hp]; [exact Hp|].
    inversion Hsorted as [|? ? _ Htl]; subst.
    rewrite Forall_forall in Htl. specialize (Htl p Hp).
    unfold above in Htl. lra.
Qed.

End Sorting.

End RankingFacts.

(** ** The processor invariant *)

Lemma reachable_paired w p : reachable w p -> paired w p.
Proof.
  induction 1 as [dir e | p _ IH | dir p _ IH].
  - constructor.
  - destruct (process_documents_extends w p) as (l & -> & Hl).
    now apply paired_extend.
  - exact IH.
Qed.

Lemma Forall2_nth_error {A B} (R : A -> B -> Prop) l l' :
  Forall2 R l l' ->
  forall i a b, nth_error l i = Some a -> nth_error l' i = Some b -> R a b.
Proof.
  induction 1 as [|x y l l' Hxy _ IH]; intros [|i] a b Ha Hb;
    simpl in *; try discriminate.
  - injection Ha as <-. injection Hb as <-. exact Hxy.
  - eapply IH; eauto.
Qed.

(** C10: in every state a DocumentProcessor can reach -- after its
    construction, after any number of [process_documents] calls, failed
    ones included, and after assignments to [documents_dir] --
    [document_titles] and [document_embeddings] have the same length and
    for every index [i], [document_titles[i]] names a file whose content
    has the embedding [document_embeddings[i]]. *)
Theorem C10_titles_embeddings_paired (w : World) (p : DocumentProcessor.t) :
  reachable w p ->
  List.length (DocumentProcessor.document_titles p) =
  List.length (DocumentProcessor.document_embeddings p) /\
  forall i title emb,
    nth_error (DocumentProcessor.document_titles p) i = Some title ->
    nth_error (DocumentProcessor.document_embeddings p) i = Some emb ->
    produced w title emb.
Proof.
  intro Hr. apply reachable_paired in Hr. split.
  - exact (Forall2_length Hr).
  - exact (Forall2_nth_error Hr).
Qed.

(** The invariant at a processor that went through a complete pass over
    [docs] and then a pass over [bad] that failed at its second file. *)
Lemma C10_titles_embeddings_paired_witness :
  let w := Sample.world Sample.reply in
  let p := snd (DocumentProcessor.process_documents w
             (DocumentProcessor.set_documents_dir "bad"
                (snd (DocumentProcessor.process_documents w
                        (DocumentProcessor.init "docs" Sample.embedder))))) in
  DocumentProcessor.document_titles p = ["a.txt"; "b.txt"; "c.txt"] /\
  List.length (DocumentProcessor.document_titles p) =
  List.length (DocumentProcessor.document_embeddings p).
Proof.
  intros w p. split; [reflexivity|].
  apply (C10_titles_embeddings_paired (w := w) (p := p)).
  apply reachable_process, reachable_set_dir, reachable_process, reachable_init.
Defined.

(** ** Building and rebuilding *)

Section BuildFacts.
Variable w : World.

Lemma nonempty_match {A B} (l : list A) (x y : B) :
  l <> [] -> match l with [] => x | _ :: _ => y end = y.
Proof. destruct l; [congruence | reflexivity]. Qed.

Lemma scan_no_txt dir names :
  txt_files names = [] -> scan w dir names = ([], None).
Proof.
  unfold txt_files.
  induction names as [|f rest IH]; simpl; [reflexivity|].
  destruct (endswith f ".txt"); [discriminate | exact IH].
Qed.

Lemma scan_shaped D dir names :
  fixed_dimension w D -> Forall (shaped D) (map snd (fst (scan w dir names))).
Proof.
  intro HD. pose proof (scan_produced w dir names) as H.
  induction H as [|[f e] l (d & text & _ & He) _ IH]; simpl; constructor; auto.
  exact (HD _ _ He).
Qed.

Lemma shaped_length D e : shaped D e -> List.length (tolist (flatten e)) = D.
Proof.
  intros (row & -> & <-). simpl. now rewrite app_nil_r.
Qed.

Lemma first_dimension_shaped D p :
  Forall (shaped D) (DocumentProcessor.document_embeddings p) ->
  DocumentProcessor.document_embeddings p <> [] ->
  SimpleRAG.first_dimension p = Ok D.
Proof.
  unfold SimpleRAG.first_dimension.
  destruct (DocumentProcessor.document_embeddings p) as [|e0 es]; [congruence|].
  intros H _. inversion H as [|? ? (row & -> & <-) _]; subst. reflexivity.
Qed.

Lemma add_embeddings_shaped D es ts :
  Forall (shaped D) es ->
  QdrantIndex.add_embeddings es ts (QdrantIndex.init D) =
  (Ok tt, {| QdrantIndex.collection_name := "documents";
             QdrantIndex.client :=
               {| Qdrant.size := D;
                  Qdrant.points := QdrantIndex.make_points es ts |} |}).
Proof.
  intro H. apply add_embeddings_fresh, make_points_dimension.
  eapply Forall_impl; [|exact H]. intros e. apply shaped_length.
Qed.

Lemma build_success D dir names api_key api_url token model temperature top_p max_tokens :
  from_pretrained w embedding_model token = Ok tt ->
  os_listdir w dir = Ok names ->
  readable w dir names ->
  fixed_dimension w D ->
  txt_files names <> [] ->
  let e := {| TextEmbedder.model_name := embedding_model;
              TextEmbedder.token := token |} in
  let p := extend (DocumentProcessor.init dir e) (fst (scan w dir names)) in
  create_simple_rag w dir api_key api_url token model temperature top_p max_tokens =
  Ok (Some (SimpleRAG.init e p (index_of D p) api_key api_url
              None None None None (Some max_tokens))).
Proof.
  intros Hload Hlist Hread HD Hne e p.
  unfold create_simple_rag, TextEmbedder.init.
  change "sentence-transformers/paraphrase-MiniLM-L6-v2" with embedding_model.
  rewrite Hload. cbn [rbind]. fold e.
  rewrite process_documents_scan. cbn [DocumentProcessor.init DocumentProcessor.documents_dir].
  rewrite Hlist. cbv zeta.
  destruct (scan_readable Hread) as [Hnone Htitles].
  rewrite Hnone. fold p.
  assert (Hes : DocumentProcessor.document_embeddings p = map snd (fst (scan w dir names)))
    by reflexivity.
  assert (Hshaped : Forall (shaped D) (DocumentProcessor.document_embeddings p)).
  { rewrite Hes. now apply scan_shaped. }
  assert (Hnonempty : DocumentProcessor.document_embeddings p <> []).
  { rewrite Hes. intro H0. apply Hne. rewrite <- Htitles.
    destruct (fst (scan w dir names)); [reflexivity | discriminate]. }
  rewrite nonempty_match by exact Hnonempty.
  rewrite (first_dimension_shaped (D := D) p) by assumption.
  cbn [rbind].
  rewrite (add_embeddings_shaped _ Hshaped). reflexivity.
Qed.

Lemma rebuild_success D dir names rag :
  os_listdir w dir = Ok names ->
  readable w dir names ->
  fixed_dimension w D ->
  Forall (shaped D) (DocumentProcessor.document_embeddings (SimpleRAG.processor rag)) ->
  DocumentProcessor.document_embeddings (SimpleRAG.processor rag) <> [] ->
  let p := extend (DocumentProcessor.set_documents_dir dir (SimpleRAG.processor rag))
                  (fst (scan w dir names)) in
  SimpleRAG.update_documents w dir rag =
  (Ok tt, SimpleRAG.with_index (index_of D p) (SimpleRAG.with_processor p rag)).
Proof.
  intros Hlist Hread HD Hold Hne p.
  unfold SimpleRAG.update_documents. py_run.
  cbn [SimpleRAG.processor SimpleRAG.with_processor].
  rewrite process_documents_scan.
  cbn [DocumentProcessor.set_documents_dir DocumentProcessor.documents_dir].
  rewrite Hlist. cbv zeta.
  destruct (scan_readable Hread) as [Hnone _]. rewrite Hnone.
  change (extend _ (fst (scan w dir names))) with p.
  assert (Hes : DocumentProcessor.document_embeddings p =
                DocumentProcessor.document_embeddings (SimpleRAG.processor rag)
                ++ map snd (fst (scan w dir names))) by reflexivity.
  assert (Hshaped : Forall (shaped D) (DocumentProcessor.document_embeddings p)).
  { rewrite Hes. apply Forall_app. split; [exact Hold | now apply scan_shaped]. }
  assert (Hnonempty : DocumentProcessor.document_embeddings p <> []).
  { rewrite Hes. intro H0. apply app_eq_nil in H0. tauto. }
  rewrite nonempty_match by exact Hnonempty.
  cbn [SimpleRAG.processor SimpleRAG.with_processor].
  rewrite (first_dimension_shaped (D := D) p) by assumption.
  cbn [SimpleRAG.index SimpleRAG.with_index SimpleRAG.processor].
  rewrite (add_embeddings_shaped _ Hshaped). reflexivity.
Qed.

End BuildFacts.

Lemma example_readable post :
  readable (Sample.world post) "docs" ["a.txt"; "notes.md"; "b.txt"].
Proof.
  intros f [<-|[<-|[<-|[]]]] E; try discriminate E;
    eexists; eexists; split; reflexivity.
Qed.

Lemma example_fixed_dimension post : fixed_dimension (Sample.world post) 2.
Proof.
  intros text emb. simpl. unfold Sample.stub_model.
  repeat destruct (String.eqb text _);
    intro H; injection H as <-; eexists; split; reflexivity.
Qed.

(** C4: building over a directory whose listing holds no [.txt] file
    makes document processing raise the [ValueError] for an empty
    document set, and [create_simple_rag] hands back [None] instead of
    an orchestrator. *)
Theorem C4_build_without_txt_files
        (w : World) (dir : string) (names : list string)
        (api_key api_url token model : string) (temperature top_p : Q)
        (max_tokens : nat) :
  from_pretrained w embedding_model token = Ok tt ->
  os_listdir w dir = Ok names ->
  txt_files names = [] ->
  (forall e,
     DocumentProcessor.process_documents w (DocumentProcessor.init dir e) =
     (Raise (ValueError DocumentProcessor.no_embeddings_msg),
      DocumentProcessor.init dir e)) /\
  create_simple_rag w dir api_key api_url token model temperature top_p max_tokens
  = Ok None.
Proof.
  intros Hload Hlist Hnone.
  assert (Hp : forall e,
    DocumentProcessor.process_documents w (DocumentProcessor.init dir e) =
    (Raise (ValueError DocumentProcessor.no_embeddings_msg),
     DocumentProcessor.init dir e)).
  { intro e. rewrite process_documents_scan.
    cbn [DocumentProcessor.init DocumentProcessor.documents_dir].
    rewrite Hlist. cbv zeta. rewrite (scan_no_txt w dir _ Hnone).
    cbn [fst snd]. rewrite extend_nil. reflexivity. }
  split; [exact Hp|].
  unfold create_simple_rag, TextEmbedder.init.
  change "sentence-transformers/paraphrase-MiniLM-L6-v2" with embedding_model.
  rewrite Hload. cbn [rbind]. rewrite Hp. reflexivity.
Qed.

Lemma C4_build_without_txt_files_witness :
  create_simple_rag (Sample.world Sample.reply) "empty" "key" "url" "hf"
                    "llama3.2" (1 # 10)%Q (95 # 100)%Q 3000 = Ok None.
Proof.
  apply (@C4_build_without_txt_files (Sample.world Sample.reply)
           "empty" ["readme.md"]);
    reflexivity.
Defined.

(** C9: over a directory with at least one [.txt] file, every one of
    which can be read and embedded by an embedder of fixed dimension,
    [create_simple_rag] returns an orchestrator whose title list is the
    list of the [.txt] files, so has their number as its length, with as
    many embeddings and exactly as many index entries. *)
Theorem C9_build_counts
        (w : World) (D : nat) (dir : string) (names : list string)
        (api_key api_url token model : string) (temperature top_p : Q)
        (max_tokens : nat) :
  from_pretrained w embedding_model token = Ok tt ->
  os_listdir w dir = Ok names ->
  readable w dir names ->
  fixed_dimension w D ->
  txt_files names <> [] ->
  exists rag,
    create_simple_rag w dir api_key api_url token model temperature top_p max_tokens
    = Ok (Some rag) /\
    DocumentProcessor.document_titles (SimpleRAG.processor rag) = txt_files names /\
    List.length (DocumentProcessor.document_embeddings (SimpleRAG.processor rag))
    = List.length (txt_files names) /\
    List.length (Qdrant.points (QdrantIndex.client (SimpleRAG.index rag)))
    = List.length (txt_files names).
Proof.
  intros Hload Hlist Hread HD Hne.
  eexists. split; [apply (build_success (D := D)); eassumption|].
  destruct (scan_readable Hread) as [_ Htitles].
  cbn [SimpleRAG.init SimpleRAG.processor SimpleRAG.index index_of
       QdrantIndex.client Qdrant.points extend DocumentProcessor.init
       DocumentProcessor.document_titles DocumentProcessor.document_embeddings
       app].
  split; [exact Htitles|]. split.
  - now rewrite <- Htitles, !length_map.
  - rewrite make_points_length, length_combine, <- Htitles, !length_map.
    apply Nat.min_id.
Qed.

Lemma C9_build_counts_witness :
  exists rag,
    Sample.build (Sample.world Sample.reply) "docs" = Ok (Some rag) /\
    DocumentProcessor.document_titles (SimpleRAG.processor rag) = ["a.txt"; "b.txt"] /\
    List.length (DocumentProcessor.document_embeddings (SimpleRAG.processor rag)) = 2 /\
    List.length (Qdrant.points (QdrantIndex.client (SimpleRAG.index rag))) = 2.
Proof.
  apply (@C9_build_counts (Sample.world Sample.reply) 2
           "docs" ["a.txt"; "notes.md"; "b.txt"]).
  - reflexivity.
  - reflexivity.
  - apply example_readable.
  - apply example_fixed_dimension.
  - discriminate.
Defined.

(** C2: rebuilding over the directory the orchestrator was built from
    does not reproduce the first index.  [process_documents] appends to
    the lists the first pass filled, so after [update_documents] every
    title is listed twice and the new index holds twice as many entries
    as the one of the first build. *)
Theorem C2_rebuild_same_directory_doubles
        (w : World) (D : nat) (dir : string) (names : list string)
        (api_key api_url token model : string) (temperature top_p : Q)
        (max_tokens : nat) :
  from_pretrained w embedding_model token = Ok tt ->
  os_listdir w dir = Ok names ->
  readable w dir names ->
  fixed_dimension w D ->
  txt_files names <> [] ->
  exists rag rag',
    create_simple_rag w dir api_key api_url token model temperature top_p max_tokens
    = Ok (Some rag) /\
    SimpleRAG.update_documents w dir rag = (Ok tt, rag') /\
    DocumentProcessor.document_titles (SimpleRAG.processor rag')
    = txt_files names ++ txt_files names /\
    List.length (Qdrant.points (QdrantIndex.client (SimpleRAG.index rag')))
    = 2 * List.length (Qdrant.points (QdrantIndex.client (SimpleRAG.index rag))) /\
    0 < List.length (Qdrant.points (QdrantIndex.client (SimpleRAG.index rag))).
Proof.
  intros Hload Hlist Hread HD Hne.
  destruct (scan_readable Hread) as [_ Htitles].
  assert (Hl : fst (scan w dir names) <> []).
  { intro H0. apply Hne. rewrite <- Htitles, H0. reflexivity. }
  eexists. eexists.
  split; [apply (build_success (D := D)); eassumption|].
  split.
  - apply (rebuild_success (D := D) (names := names)); try assumption.
    + cbn. now apply scan_shaped.
    + cbn. destruct (fst (scan w dir names)); [congruence | discriminate].
  - cbn [SimpleRAG.init SimpleRAG.processor SimpleRAG.index SimpleRAG.with_index
         SimpleRAG.with_processor index_of QdrantIndex.client Qdrant.points
         extend DocumentProcessor.init DocumentProcessor.set_documents_dir
         DocumentProcessor.document_titles DocumentProcessor.document_embeddings
         app].
    split; [now rewrite Htitles|].
    rewrite !make_points_length, !length_combine, !length_app, !length_map.
    destruct (fst (scan w dir names)); [congruence | simpl; lia].
Qed.

Lemma C2_rebuild_same_directory_doubles_witness :
  exists rag rag',
    Sample.build (Sample.world Sample.reply) "docs" = Ok (Some rag) /\
    SimpleRAG.update_documents (Sample.world Sample.reply) "docs" rag = (Ok tt, rag') /\
    DocumentProcessor.document_titles (SimpleRAG.processor rag')
    = ["a.txt"; "b.txt"; "a.txt"; "b.txt"] /\
    List.length (Qdrant.points (QdrantIndex.client (SimpleRAG.index rag')))
    = 2 * List.length (Qdrant.points (QdrantIndex.client (SimpleRAG.index rag))) /\
    0 < List.length (Qdrant.points (QdrantIndex.client (SimpleRAG.index rag))).
Proof.
  apply (@C2_rebuild_same_directory_doubles (Sample.world Sample.reply) 2
           "docs" ["a.txt"; "notes.md"; "b.txt"]).
  - reflexivity.
  - reflexivity.
  - apply example_readable.
  - apply example_fixed_dimension.
  - discriminate.
Defined.

(** C3, as the code has it: when document processing fails during
    [update_documents] the index is the one from before the call; a
    [ValueError] is logged and the call returns normally, any other
    exception reaches the caller. *)
Theorem C3_failed_rebuild_keeps_index
        (w : World) (rag : SimpleRAG.t) (dir : string) (e : exn)
        (p' : DocumentProcessor.t) :
  DocumentProcessor.process_documents w
    (DocumentProcessor.set_documents_dir dir (SimpleRAG.processor rag))
  = (Raise e, p') ->
  exists rag',
    SimpleRAG.update_documents w dir rag
    = ((if isinstance_ValueError e then Ok tt else Raise e), rag') /\
    SimpleRAG.index rag' = SimpleRAG.index rag.
Proof.
  intro H.
  unfold SimpleRAG.update_documents. py_run.
  cbn [SimpleRAG.processor SimpleRAG.with_processor].
  rewrite H.
  destruct (isinstance_ValueError e); eexists; split; reflexivity.
Qed.

Lemma C3_failed_rebuild_keeps_index_witness :
  exists rag',
    SimpleRAG.update_documents (Sample.world Sample.reply) "bad" Sample.rag
    = (Ok tt, rag') /\
    SimpleRAG.index rag' = SimpleRAG.index Sample.rag.
Proof.
  apply (@C3_failed_rebuild_keeps_index (Sample.world Sample.reply)
           Sample.rag "bad" UnicodeDecodeError
           (snd (DocumentProcessor.process_documents (Sample.world Sample.reply)
                   (DocumentProcessor.set_documents_dir "bad"
                      (SimpleRAG.processor Sample.rag))))).
  reflexivity.
Defined.

(** C3, as stated, fails: a rebuild towards a directory whose second
    file is not valid UTF-8 returns normally, with the processor pointing
    at the new directory and holding the first file of it. *)
Lemma C3_rebuild_failure_counterexample : ~ rebuild_failure_as_stated.
Proof.
  intro H.
  specialize (H (Sample.world Sample.reply) Sample.rag "bad" UnicodeDecodeError
                (snd (DocumentProcessor.process_documents (Sample.world Sample.reply)
                        (DocumentProcessor.set_documents_dir "bad"
                           (SimpleRAG.processor Sample.rag))))
                eq_refl).
  vm_compute in H. discriminate H.
Qed.

(** C5: whatever [model], [temperature] and [top_p] are handed to
    [create_simple_rag], the payloads of the orchestrator it returns carry
    the constructor defaults ["llama3.2"], [0.1] and [0.95]; [max_tokens]
    is the argument. *)
Theorem C5_sampling_arguments_dropped
        (w : World) (dir api_key api_url token model : string)
        (temperature top_p : Q) (max_tokens : nat)
        (rag : SimpleRAG.t) (prompt : string) :
  create_simple_rag w dir api_key api_url token model temperature top_p max_tokens
  = Ok (Some rag) ->
  p_model (SimpleRAG._create_payload rag prompt) = "llama3.2" /\
  p_temperature (SimpleRAG._create_payload rag prompt) = (1 # 10)%Q /\
  p_top_p (SimpleRAG._create_payload rag prompt) = (95 # 100)%Q /\
  p_max_tokens (SimpleRAG._create_payload rag prompt) = max_tokens.
Proof.
  unfold create_simple_rag. intro H.
  destruct (TextEmbedder.init w _ token) as [e|x]; [|discriminate].
  cbn [rbind] in H.
  destruct (DocumentProcessor.process_documents w _) as [[[]|x] p].
  - destruct (SimpleRAG.first_dimension p) as [d|x]; [|discriminate].
    cbn [rbind] in H.
    destruct (QdrantIndex.add_embeddings _ _ _) as [[[]|x] idx]; [|discriminate].
    injection H as <-. repeat split.
  - destruct (isinstance_ValueError x); discriminate.
Qed.

Lemma C5_sampling_arguments_dropped_witness :
  p_model (SimpleRAG._create_payload Sample.rag "hello") = "llama3.2" /\
  p_temperature (SimpleRAG._create_payload Sample.rag "hello") = (1 # 10)%Q /\
  p_top_p (SimpleRAG._create_payload Sample.rag "hello") = (95 # 100)%Q /\
  p_max_tokens (SimpleRAG._create_payload Sample.rag "hello") = 800.
Proof.
  apply (@C5_sampling_arguments_dropped (Sample.world Sample.reply)
           "docs" "key" "http://localhost:11434/api/chat" "hf"
           "mistral" (7 # 10)%Q (1 # 2)%Q 800).
  reflexivity.
Defined.

(** ** Answering a query *)

Lemma getitem_raises_exception v key e :
  getitem v key = Raise e -> isinstance_Exception e = true.
Proof.
  destruct v; simpl; try (intro H; injection H as <-; reflexivity).
  destruct (assoc_get key fields); [discriminate|].
  intro H; injection H as <-; reflexivity.
Qed.

(** The handler of [generate_response] does apply to what is raised
    after the reply was parsed: a reply without [message.content] gives
    [None]. *)
Lemma generate_response_malformed_reply w rag query retrieved v e :
  requests_post w (SimpleRAG.api_url rag) (headers_of rag)
                (request_of rag query retrieved) = HttpResponse 200 (Some v) ->
  (m <~ getitem v "message" ;; getitem m "content")%res = Raise e ->
  SimpleRAG.generate_response w rag query retrieved = Ok None.
Proof.
  intros Hpost Hget.
  unfold SimpleRAG.generate_response, EndPoint.send, RequestSender.send.
  change (requests_post w _ _ _)
    with (requests_post w (SimpleRAG.api_url rag) (headers_of rag)
                        (request_of rag query retrieved)).
  rewrite Hpost. cbn [RequestSender.raise_for_status Nat.leb Nat.ltb andb rbind].
  simpl RequestSender.raise_for_status. cbn [rbind].
  rewrite Hget.
  assert (He : isinstance_Exception e = true).
  { unfold rbind in Hget.
    destruct (getitem v "message") as [m|e'] eqn:E.
    - eapply getitem_raises_exception; eauto.
    - injection Hget as <-. eapply getitem_raises_exception; eauto. }
  now rewrite He.
Qed.

(** C1: when the completion call fails -- no response, a 4xx or 5xx
    status, or a body that is not JSON -- [RequestSender.send] raises
    [SystemExit], which is no [Exception]: the handler of
    [generate_response] does not apply, and the query step ends with
    that [SystemExit] instead of the pair of [None] and the retrieved
    titles. *)
Theorem C1_completion_failure_exits
        (w : World) (rag : SimpleRAG.t) (query retrieved : string)
        (titles : list string) :
  SimpleRAG.retrieve w rag query = Ok (retrieved, titles) ->
  completion_fails
    (requests_post w (SimpleRAG.api_url rag) (headers_of rag)
                   (request_of rag query retrieved)) ->
  exists msg cause,
    SimpleRAG.generate_response w rag query retrieved = Raise (SystemExit msg cause) /\
    answer w rag query = Raise (SystemExit msg cause).
Proof.
  intros Hret Hfail.
  assert (Hgen : exists msg cause,
    SimpleRAG.generate_response w rag query retrieved = Raise (SystemExit msg cause)).
  { unfold SimpleRAG.generate_response, EndPoint.send, RequestSender.send.
    change (requests_post w _ _ _)
      with (requests_post w (SimpleRAG.api_url rag) (headers_of rag)
                          (request_of rag query retrieved)).
    destruct (requests_post w _ _ _) as [|status body]; simpl in *.
    - eexists; eexists; reflexivity.
    - destruct (RequestSender.raise_for_status status) eqn:E.
      + eexists; eexists; reflexivity.
      + destruct Hfail as [Hst| ->]; [|eexists; eexists; reflexivity].
        unfold RequestSender.raise_for_status in E.
        assert (H1 : Nat.leb 400 status = true) by (apply Nat.leb_le; lia).
        assert (H2 : Nat.ltb status 600 = true) by (apply Nat.ltb_lt; lia).
        rewrite H1, H2 in E. discriminate. }
  destruct Hgen as (msg & cause & Hgen).
  exists msg, cause. split; [exact Hgen|].
  unfold answer. rewrite Hret. cbn [rbind]. rewrite Hgen. reflexivity.
Qed.

Lemma C1_completion_failure_exits_witness :
  exists msg cause,
    SimpleRAG.generate_response (Sample.world (HttpResponse 500 None)) Sample.rag
      "tell me about pets" ("cats are mammals" ++ nl ++ "rockets use fuel" ++ nl)
    = Raise (SystemExit msg cause) /\
    answer (Sample.world (HttpResponse 500 None)) Sample.rag "tell me about pets"
    = Raise (SystemExit msg cause).
Proof.
  apply (@C1_completion_failure_exits (Sample.world (HttpResponse 500 None))
           Sample.rag "tell me about pets"
           ("cats are mammals" ++ nl ++ "rockets use fuel" ++ nl)
           ["a.txt"; "b.txt"]).
  - reflexivity.
  - simpl. left. lia.
Defined.

Lemma string_append_assoc (a b c : string) :
  ((a ++ b) ++ c = a ++ (b ++ c))%string.
Proof. induction a as [|x a IH]; simpl; [reflexivity | now rewrite IH]. Qed.

Lemma string_append_nil_r (a : string) : (a ++ "" = a)%string.
Proof. induction a as [|x a IH]; simpl; [reflexivity | now rewrite IH]. Qed.

Lemma read_titles_terminated w dir titles : forall acc retrieved,
  SimpleRAG.read_titles w dir titles acc = Ok retrieved ->
  exists texts,
    contents_of w dir titles texts /\
    retrieved = (acc ++ terminated texts)%string.
Proof.
  induction titles as [|title rest IH]; intros acc retrieved H; simpl in H.
  - injection H as <-. exists []. split; [constructor|].
    simpl. now rewrite string_append_nil_r.
  - destruct (open_read w (os_path_join dir title)) as [text|e] eqn:E;
      [|discriminate].
    cbn [rbind] in H.
    destruct (IH _ _ H) as (texts & Hc & ->).
    exists (text :: texts). split; [now constructor|].
    simpl. now rewrite !string_append_assoc.
Qed.

(** C8, as the code has it: for a query whose retrieval succeeds, the
    titles are what the index search returns for the embedded query, the
    retrieved text is the text of each of those documents, read from the
    processor's directory in that order, each followed by a line feed;
    the request carries the fixed system message and the user message
    "Based on the following documents:\n{text}\nAnswer the query:
    {query}", and it is the only thing the response depends on. *)
Theorem C8_prompt_of_retrieved_documents
        (w : World) (rag : SimpleRAG.t) (query retrieved : string)
        (titles : list string) :
  SimpleRAG.retrieve w rag query = Ok (retrieved, titles) ->
  exists e texts,
    TextEmbedder.embed_text w (SimpleRAG.embedder rag) query = Ok e /\
    QdrantIndex.search (SimpleRAG.index rag) (flatten e) (SimpleRAG.top_n rag)
    = Ok titles /\
    contents_of w (DocumentProcessor.documents_dir (SimpleRAG.processor rag))
                titles texts /\
    retrieved = terminated texts /\
    p_messages (request_of rag query retrieved) =
    [ {| role := "system";
         content := "You are a helpful assistant named DocumentFinder" |};
      {| role := "user";
         content := "Based on the following documents:" ++ nl
                    ++ terminated texts ++ nl ++ "Answer the query: " ++ query |} ] /\
    forall w',
      requests_post w' (SimpleRAG.api_url rag) (headers_of rag)
                    (request_of rag query retrieved)
      = requests_post w (SimpleRAG.api_url rag) (headers_of rag)
                      (request_of rag query retrieved) ->
      SimpleRAG.generate_response w' rag query retrieved
      = SimpleRAG.generate_response w rag query retrieved.
Proof.
  unfold SimpleRAG.retrieve. intro H.
  destruct (TextEmbedder.embed_text w (SimpleRAG.embedder rag) query) as [e|x]
    eqn:He; [|discriminate].
  cbn [rbind] in H.
  destruct (QdrantIndex.search _ _ _) as [ts|x] eqn:Hs; [|discriminate].
  cbn [rbind] in H.
  destruct (SimpleRAG.read_titles _ _ _ _) as [c|x] eqn:Hread; [|discriminate].
  cbn [rbind] in H. injection H as <- <-.
  destruct (read_titles_terminated _ _ _ _ Hread) as (texts & Hc & ->).
  exists e, texts.
  split; [reflexivity|]. split; [exact Hs|]. split; [exact Hc|].
  split; [reflexivity|]. split; [reflexivity|].
  intros w' Hpost.
  unfold SimpleRAG.generate_response, EndPoint.send, RequestSender.send.
  change (requests_post w' _ _ _)
    with (requests_post w' (SimpleRAG.api_url rag) (headers_of rag)
            (request_of rag query ("" ++ terminated texts))).
  now rewrite Hpost.
Qed.

Lemma C8_prompt_of_retrieved_documents_witness :
  exists texts,
    contents_of (Sample.world Sample.reply) "docs" ["a.txt"; "b.txt"] texts /\
    p_messages (request_of Sample.rag "tell me about pets"
                  ("cats are mammals" ++ nl ++ "rockets use fuel" ++ nl)) =
    [ {| role := "system";
         content := "You are a helpful assistant named DocumentFinder" |};
      {| role := "user";
         content := "Based on the following documents:" ++ nl
                    ++ terminated texts ++ nl
                    ++ "Answer the query: tell me about pets" |} ].
Proof.
  destruct (@C8_prompt_of_retrieved_documents (Sample.world Sample.reply)
              Sample.rag "tell me about pets"
              ("cats are mammals" ++ nl ++ "rockets use fuel" ++ nl)
              ["a.txt"; "b.txt"] eq_refl)
    as (e & texts & _ & _ & Hc & _ & Hmsg & _).
  exists texts. split; [exact Hc | exact Hmsg].
Defined.

(** C8, as stated, fails: with the two sample documents retrieved, the
    text the prompt embeds ends in a line feed, so the prompt has an
    empty line before "Answer the query" that the stated one has not. *)
Lemma C8_prompt_counterexample : ~ prompt_as_stated.
Proof.
  intro H.
  specialize (H (Sample.world Sample.reply) Sample.rag "tell me about pets"
                ("cats are mammals" ++ nl ++ "rockets use fuel" ++ nl)%string
                ["a.txt"; "b.txt"] ["cats are mammals"; "rockets use fuel"]
                eq_refl).
  assert (Hc : contents_of (Sample.world Sample.reply) "docs"
                 ["a.txt"; "b.txt"] ["cats are mammals"; "rockets use fuel"])
    by (repeat constructor).
  specialize (H Hc). vm_compute in H. discriminate H.
Qed.

(** ** The index *)

(** C7: [add_embeddings] on a sequence of (vector, title) pairs whose
    vectors have the dimension of the index returns normally, and each
    pair is then the entry stored under its 0-based position in the
    sequence; on a fresh index the entries are exactly these, one per
    pair in sequence order, so equal titles stay distinct entries. *)
Theorem C7_add_embeddings_positions
        (self : QdrantIndex.t) (entries : list (ndarray * string)) :
  Forall (fun en => List.length (tolist (flatten (fst en)))
                    = Qdrant.size (QdrantIndex.client self)) entries ->
  exists self',
    QdrantIndex.add_embeddings (map fst entries) (map snd entries) self
    = (Ok tt, self') /\
    (forall i e t,
       nth_error entries i = Some (e, t) ->
       find_by_id i (Qdrant.points (QdrantIndex.client self'))
       = Some (point_of i e t)) /\
    (Qdrant.points (QdrantIndex.client self) = [] ->
     List.length (Qdrant.points (QdrantIndex.client self')) = List.length entries /\
     map Qdrant.title (Qdrant.points (QdrantIndex.client self')) = map snd entries /\
     forall i e t,
       nth_error entries i = Some (e, t) ->
       nth_error (Qdrant.points (QdrantIndex.client self')) i
       = Some (point_of i e t)).
Proof.
  intro Hdim.
  assert (Hnth : forall i e t, nth_error entries i = Some (e, t) ->
            nth_error (QdrantIndex.make_points (map fst entries) (map snd entries)) i
            = Some (point_of i e t)).
  { intros i e t Hi. apply make_points_nth.
    - rewrite nth_error_map, Hi. reflexivity.
    - rewrite nth_error_map, Hi. reflexivity. }
  unfold QdrantIndex.add_embeddings, Qdrant.upsert.
  rewrite make_points_dimension.
  2:{ apply Forall_map. exact Hdim. }
  eexists. split; [reflexivity|].
  cbn [QdrantIndex.client Qdrant.points].
  split.
  - intros i e t Hi.
    change i with (Qdrant.id (point_of i e t)) at 1.
    apply upsert_all_in; [apply make_points_NoDup|].
    eapply nth_error_In. now apply Hnth.
  - intros ->.
    rewrite upsert_all_new; [| apply make_points_NoDup | intros p _ []].
    cbn [app]. repeat split.
    + rewrite make_points_length, length_combine, !length_map. apply Nat.min_id.
    + rewrite make_points_titles.
      clear. induction entries as [|[e t] l IH]; simpl; [reflexivity | now rewrite IH].
    + exact Hnth.
Qed.

Lemma C7_add_embeddings_positions_witness :
  exists self',
    QdrantIndex.add_embeddings
      [Arr2 [[1; 0]%Q]; Arr2 [[0; 1]%Q]; Arr2 [[1; 1]%Q]]
      ["a.txt"; "b.txt"; "a.txt"] (QdrantIndex.init 2) = (Ok tt, self') /\
    map Qdrant.id (Qdrant.points (QdrantIndex.client self')) = [0; 1; 2] /\
    map Qdrant.title (Qdrant.points (QdrantIndex.client self'))
    = ["a.txt"; "b.txt"; "a.txt"].
Proof.
  destruct (@C7_add_embeddings_positions (QdrantIndex.init 2)
              [(Arr2 [[1; 0]%Q], "a.txt"); (Arr2 [[0; 1]%Q], "b.txt");
               (Arr2 [[1; 1]%Q], "a.txt")])
    as (self' & Hadd & _ & _).
  - repeat constructor.
  - exists self'. split; [exact Hadd|].
    vm_compute in Hadd. injection Hadd as <-. split; reflexivity.
Defined.

(** C6, as the model of the collection has it: a search with a query of
    the index's dimension returns at most [top_n] titles, each the title
    of a stored entry, in order of non-increasing cosine similarity to the
    query; it returns all entries if there are fewer than [top_n]; and an
    entry whose vector is the query comes first when [top_n] is at least
    1 and every other entry is strictly less similar to the query --
    whichever way equally similar entries are ordered. *)
Theorem C6_search_ranking (idx : QdrantIndex.t) (v : ndarray) (top_n : nat) :
  List.length (tolist (flatten v)) = Qdrant.size (QdrantIndex.client idx) ->
  exists hits,
    QdrantIndex.search idx v top_n = Ok (map Qdrant.title hits) /\
    List.length hits <= top_n /\
    incl hits (Qdrant.points (QdrantIndex.client idx)) /\
    ranked (tolist (flatten v)) hits /\
    (List.length (Qdrant.points (QdrantIndex.client idx)) < top_n ->
     Permutation hits (Qdrant.points (QdrantIndex.client idx))) /\
    (forall i p,
       nth_error (Qdrant.points (QdrantIndex.client idx)) i = Some p ->
       Qdrant.vector p = tolist (flatten v) ->
       1 <= top_n ->
       (forall j p',
          j <> i ->
          nth_error (Qdrant.points (QdrantIndex.client idx)) j = Some p' ->
          (Qdrant.cosine_rank (tolist (flatten v)) (Qdrant.vector p')
           < Qdrant.cosine_rank (tolist (flatten v)) (Qdrant.vector p))%Q) ->
       hd_error (map Qdrant.title hits) = Some (Qdrant.title p)).
Proof.
  intro Hdim.
  set (q := tolist (flatten v)) in *.
  set (stored := Qdrant.points (QdrantIndex.client idx)).
  exists (firstn top_n (Qdrant.rank_hits q stored)).
  split.
  { unfold QdrantIndex.search, Qdrant.search.
    assert (Hq : tolist (flatten (flatten v)) = q) by (destruct v; reflexivity).
    fold q. apply Nat.eqb_eq in Hdim. fold q in Hdim. rewrite Hdim. reflexivity. }
  split; [apply firstn_le_length|].
  split.
  { intros x Hx. apply firstn_subset in Hx.
    exact (Permutation_in _ (rank_hits_perm q stored) Hx). }
  split; [apply firstn_sorted, rank_hits_sorted|].
  split.
  { intro Hlen. rewrite firstn_all2.
    - apply rank_hits_perm.
    - rewrite (Permutation_length (rank_hits_perm q stored)). lia. }
  intros i p Hi Hvec Htop Hbest.
  destruct (@strict_best_is_first q stored (Qdrant.rank_hits q stored) i p
              (rank_hits_perm q stored) (rank_hits_sorted q stored) Hi Hbest)
    as [tl ->].
  destruct top_n as [|n]; [lia | reflexivity].
Qed.

(** A query equal to the second sample vector, with one hit asked for. *)
Lemma C6_search_ranking_witness :
  exists hits,
    QdrantIndex.search (SimpleRAG.index Sample.rag) (Arr1 [0; 1]%Q) 1
    = Ok (map Qdrant.title hits) /\
    List.length hits <= 1 /\
    hd_error (map Qdrant.title hits) = Some "b.txt".
Proof.
  destruct (@C6_search_ranking (SimpleRAG.index Sample.rag) (Arr1 [0; 1]%Q) 1 eq_refl)
    as (hits & Hs & Hlen & _ & _ & _ & Hfirst).
  exists hits. split; [exact Hs|]. split; [exact Hlen|].
  apply (Hfirst 1 {| Qdrant.id := 1; Qdrant.vector := [0; 1]%Q;
                     Qdrant.title := "b.txt" |}).
  - reflexivity.
  - reflexivity.
  - lia.
  - intros j p' Hj Hn. destruct j as [|[|j]].
    + injection Hn as <-. reflexivity.
    + contradiction.
    + destruct j; discriminate Hn.
Defined.

(** C6, as stated, fails without any duplicate: [1; 0] and [2; 0] point
    the same way, so a search ranks the two entries of [parallel_index]
    alike for either vector as the query, and the entry it lists first
    cannot be both the one that holds [1; 0] and the one that holds
    [2; 0].  Which of the two queries is the failing one depends on the
    order of equally similar entries only. *)
Lemma C6_parallel_vectors_counterexample :
  ~ (search_as_stated parallel_index (Arr1 [1; 0]%Q) 3 /\
     search_as_stated parallel_index (Arr1 [2; 0]%Q) 3).
Proof.
  intros [(h1 & Hs1 & _ & _ & _ & _ & Hfirst1) (h2 & Hs2 & _ & _ & _ & _ & Hfirst2)].
  assert (Hnodup : no_exact_duplicates parallel_index).
  { unfold no_exact_duplicates. simpl.
    constructor; [intros [H|[]]; discriminate H|].
    constructor; [intros []|constructor]. }
  assert (Hsame : QdrantIndex.search parallel_index (Arr1 [1; 0]%Q) 3
                  = QdrantIndex.search parallel_index (Arr1 [2; 0]%Q) 3)
    by reflexivity.
  rewrite Hs1, Hs2 in Hsame. injection Hsame as Hsame.
  assert (H1 : hd_error (map Qdrant.title h1) = Some "a.txt").
  { apply (Hfirst1 ltac:(lia) Hnodup
             {| Qdrant.id := 0; Qdrant.vector := [1; 0]%Q; Qdrant.title := "a.txt" |});
      [left; reflexivity | reflexivity]. }
  assert (H2 : hd_error (map Qdrant.title h2) = Some "b.txt").
  { apply (Hfirst2 ltac:(lia) Hnodup
             {| Qdrant.id := 1; Qdrant.vector := [2; 0]%Q; Qdrant.title := "b.txt" |});
      [right; left; reflexivity | reflexivity]. }
  rewrite Hsame, H2 in H1. discriminate H1.
Qed.

(** * Further properties *)

(** ** Document processing, continued *)

Section ProcessorMore.
Variable w : World.

Lemma scan_txt_only dir names :
  scan w dir (txt_files names) = scan w dir names.
Proof.
  unfold txt_files.
  induction names as [|f rest IH]; simpl; [reflexivity|].
  destruct (endswith f ".txt") eqn:E; [|exact IH].
  simpl. rewrite E, IH. reflexivity.
Qed.

Lemma scan_complete dir names :
  snd (scan w dir names) = None ->
  map fst (fst (scan w dir names)) = txt_files names.
Proof.
  unfold txt_files.
  induction names as [|f rest IH]; simpl; [reflexivity|].
  destruct (endswith f ".txt"); [|exact IH].
  destruct (open_read w (os_path_join dir f)) as [text|e]; [|discriminate].
  destruct (model_forward w text) as [emb|e]; [|discriminate].
  destruct (scan w dir rest) as [l r]; simpl in *.
  intro H. now rewrite IH.
Qed.

Lemma scan_app dir pre rest :
  readable w dir pre ->
  scan w dir (pre ++ rest) =
  (fst (scan w dir pre) ++ fst (scan w dir rest), snd (scan w dir rest)).
Proof.
  induction pre as [|f pre IH]; intro H; simpl.
  - now destruct (scan w dir rest).
  - assert (Hpre : readable w dir pre) by (intros g Hg; apply H; now right).
    specialize (IH Hpre).
    destruct (endswith f ".txt") eqn:E; [|exact IH].
    destruct (H f (or_introl eq_refl) E) as (text & emb & Hr & He).
    rewrite Hr, He, IH.
    destruct (scan w dir pre) as [l r]. reflexivity.
Qed.

Lemma scan_length dir names :
  List.length (map snd (fst (scan w dir names)))
  = List.length (map fst (fst (scan w dir names))).
Proof. now rewrite !length_map. Qed.

End ProcessorMore.

(** X1: the loop of [process_documents] only looks at the names that end
    in [.txt]: a listing and the list of its [.txt] names give the same
    outcome and the same processor. *)
Theorem X1_other_files_are_skipped
        (w : World) (names : list string) (p : DocumentProcessor.t) :
  DocumentProcessor.process_files w names p
  = DocumentProcessor.process_files w (txt_files names) p.
Proof.
  rewrite !process_files_scan. now rewrite scan_txt_only.
Qed.

(** X2: [process_documents] stops at the first [.txt] file it cannot
    read or embed and raises that error; the files embedded before it
    stay appended, in listing order, and nothing after it is added. *)
Theorem X2_first_failure_aborts_pass
        (w : World) (p : DocumentProcessor.t)
        (pre : list string) (f : string) (post : list string) (e : exn) :
  os_listdir w (DocumentProcessor.documents_dir p) = Ok (pre ++ f :: post) ->
  readable w (DocumentProcessor.documents_dir p) pre ->
  endswith f ".txt" = true ->
  (open_read w (os_path_join (DocumentProcessor.documents_dir p) f) = Raise e \/
   exists text,
     open_read w (os_path_join (DocumentProcessor.documents_dir p) f) = Ok text /\
     model_forward w text = Raise e) ->
  exists p',
    DocumentProcessor.process_documents w p = (Raise e, p') /\
    DocumentProcessor.document_titles p'
    = DocumentProcessor.document_titles p ++ txt_files pre /\
    List.length (DocumentProcessor.document_embeddings p')
    = List.length (DocumentProcessor.document_embeddings p)
      + List.length (txt_files pre).
Proof.
  intros Hlist Hpre Hf Hfail.
  rewrite process_documents_scan, Hlist. cbv zeta.
  rewrite (scan_app _ Hpre).
  destruct (scan_readable Hpre) as [_ Htitles].
  assert (Hrest : scan w (DocumentProcessor.documents_dir p) (f :: post) = ([], Some e)).
  { simpl. rewrite Hf.
    destruct Hfail as [-> | (text & -> & ->)]; reflexivity. }
  rewrite Hrest. cbn [fst snd]. rewrite app_nil_r.
  eexists. split; [reflexivity|].
  cbn [extend DocumentProcessor.document_titles DocumentProcessor.document_embeddings].
  split; [now rewrite Htitles|].
  now rewrite length_app, scan_length, Htitles.
Qed.

Lemma X2_first_failure_aborts_pass_witness :
  exists p',
    DocumentProcessor.process_documents (Sample.world Sample.reply)
      (DocumentProcessor.init "bad" Sample.embedder) = (Raise UnicodeDecodeError, p') /\
    DocumentProcessor.document_titles p' = [] ++ ["c.txt"] /\
    List.length (DocumentProcessor.document_embeddings p') = 0 + 1.
Proof.
  apply (@X2_first_failure_aborts_pass (Sample.world Sample.reply)
           (DocumentProcessor.init "bad" Sample.embedder)
           ["c.txt"] "bad.txt" [] UnicodeDecodeError).
  - reflexivity.
  - intros f [<-|[]] _. eexists; eexists; split; reflexivity.
  - reflexivity.
  - left. reflexivity.
Defined.

(** X3: the empty-document-set error looks at the accumulated list, not
    at the directory: once a processor holds an embedding, a pass over a
    directory without [.txt] files returns normally and changes
    nothing. *)
Theorem X3_empty_directory_after_documents
        (w : World) (p : DocumentProcessor.t) (names : list string) :
  os_listdir w (DocumentProcessor.documents_dir p) = Ok names ->
  txt_files names = [] ->
  DocumentProcessor.document_embeddings p <> [] ->
  DocumentProcessor.process_documents w p = (Ok tt, p).
Proof.
  intros Hlist Hnone Hne.
  rewrite process_documents_scan, Hlist. cbv zeta.
  rewrite (scan_no_txt w _ _ Hnone). cbn [fst snd]. rewrite extend_nil.
  now rewrite nonempty_match.
Qed.

Lemma X3_empty_directory_after_documents_witness :
  let p := DocumentProcessor.set_documents_dir "empty" (SimpleRAG.processor Sample.rag) in
  DocumentProcessor.process_documents (Sample.world Sample.reply) p = (Ok tt, p).
Proof.
  intro p.
  apply (@X3_empty_directory_after_documents (Sample.world Sample.reply) p ["readme.md"]).
  - reflexivity.
  - reflexivity.
  - discriminate.
Defined.

(** X4: whenever [process_documents] returns normally, the directory
    could be listed, the titles are the earlier titles followed by all
    [.txt] names of the listing in listing order, one embedding was added
    per such name, and the document set is not empty. *)
Theorem X4_successful_pass_appends_all
        (w : World) (p p' : DocumentProcessor.t) :
  DocumentProcessor.process_documents w p = (Ok tt, p') ->
  exists names,
    os_listdir w (DocumentProcessor.documents_dir p) = Ok names /\
    DocumentProcessor.document_titles p'
    = DocumentProcessor.document_titles p ++ txt_files names /\
    List.length (DocumentProcessor.document_embeddings p')
    = List.length (DocumentProcessor.document_embeddings p)
      + List.length (txt_files names) /\
    DocumentProcessor.document_embeddings p' <> [] /\
    DocumentProcessor.documents_dir p' = DocumentProcessor.documents_dir p.
Proof.
  rewrite process_documents_scan.
  destruct (os_listdir w (DocumentProcessor.documents_dir p)) as [names|e];
    [|discriminate].
  cbv zeta.
  destruct (snd (scan w (DocumentProcessor.documents_dir p) names)) eqn:Hs;
    [discriminate|].
  pose proof (scan_complete _ _ _ Hs) as Htitles.
  destruct (DocumentProcessor.document_embeddings (extend p _)) eqn:He;
    [discriminate|].
  intro H. injection H as <-.
  exists names. split; [reflexivity|].
  split; [cbn; now rewrite Htitles|].
  split; [cbn; now rewrite length_app, scan_length, Htitles|].
  split; [now rewrite He | reflexivity].
Qed.

Lemma X4_successful_pass_appends_all_witness :
  exists names,
    os_listdir (Sample.world Sample.reply) "docs" = Ok names /\
    DocumentProcessor.document_titles (SimpleRAG.processor Sample.rag)
    = [] ++ txt_files names /\
    List.length (DocumentProcessor.document_embeddings (SimpleRAG.processor Sample.rag))
    = 0 + List.length (txt_files names) /\
    DocumentProcessor.document_embeddings (SimpleRAG.processor Sample.rag) <> [] /\
    DocumentProcessor.documents_dir (SimpleRAG.processor Sample.rag) = "docs".
Proof.
  apply (@X4_successful_pass_appends_all (Sample.world Sample.reply)
           (DocumentProcessor.init "docs" Sample.embedder)
           (SimpleRAG.processor Sample.rag)).
  reflexivity.
Defined.

(** ** The index, continued *)

(** X5: [add_embeddings] pairs embeddings and titles with [zip], so on a
    fresh index it stores as many entries as the shorter of the two lists
    has items, under the ids 0, 1, ...; the surplus of the longer list is
    dropped without an error. *)
Theorem X5_add_embeddings_truncates
        (d : nat) (embeddings : list ndarray) (titles : list string) :
  Forall (fun e => List.length (tolist (flatten e)) = d) embeddings ->
  exists self',
    QdrantIndex.add_embeddings embeddings titles (QdrantIndex.init d) = (Ok tt, self') /\
    map Qdrant.id (Qdrant.points (QdrantIndex.client self'))
    = seq 0 (Nat.min (List.length embeddings) (List.length titles)) /\
    map Qdrant.title (Qdrant.points (QdrantIndex.client self'))
    = firstn (List.length embeddings) titles.
Proof.
  intro Hdim.
  rewrite (add_embeddings_fresh d embeddings titles (make_points_dimension _ Hdim)).
  eexists. split; [reflexivity|].
  cbn [QdrantIndex.client Qdrant.points].
  split.
  - now rewrite make_points_ids, length_combine.
  - rewrite make_points_titles. clear.
    revert titles. induction embeddings as [|e es IH]; intros [|t ts]; simpl;
      try reflexivity.
    now rewrite IH.
Qed.

Lemma X5_add_embeddings_truncates_witness :
  exists self',
    QdrantIndex.add_embeddings [Arr2 [[1; 0]%Q]] ["a.txt"; "b.txt"; "c.txt"]
      (QdrantIndex.init 2) = (Ok tt, self') /\
    map Qdrant.id (Qdrant.points (QdrantIndex.client self')) = seq 0 (Nat.min 1 3) /\
    map Qdrant.title (Qdrant.points (QdrantIndex.client self'))
    = firstn 1 ["a.txt"; "b.txt"; "c.txt"].
Proof.
  apply (@X5_add_embeddings_truncates 2 [Arr2 [[1; 0]%Q]] ["a.txt"; "b.txt"; "c.txt"]).
  repeat constructor.
Defined.

(** ** The endpoint, continued *)

Lemma raise_for_status_cases status :
  (RequestSender.raise_for_status status = None /\ ~ (400 <= status < 600)) \/
  (RequestSender.raise_for_status status = Some (HTTPError status) /\
   400 <= status < 600).
Proof.
  unfold RequestSender.raise_for_status.
  destruct (Nat.leb 400 status) eqn:E1; destruct (Nat.ltb status 600) eqn:E2;
    cbn [andb].
  - right. apply Nat.leb_le in E1. apply Nat.ltb_lt in E2. split; [reflexivity | lia].
  - left. apply Nat.ltb_ge in E2. split; [reflexivity | lia].
  - left. apply Nat.leb_gt in E1. split; [reflexivity | lia].
  - left. apply Nat.leb_gt in E1. split; [reflexivity | lia].
Qed.

(** X6: [RequestSender.send] returns a value exactly when the endpoint
    answered with a status outside 400..599 and a JSON body, and then it
    returns that body; whatever it raises is no [Exception] (it is a
    [SystemExit]). *)
Theorem X6_send_returns_or_exits
        (w : World) (endpoint : string) (headers : list (string * string))
        (pl : payload) :
  (forall v,
     RequestSender.send w endpoint headers pl = Ok v <->
     exists status,
       requests_post w endpoint headers pl = HttpResponse status (Some v) /\
       ~ (400 <= status < 600)) /\
  (forall e,
     RequestSender.send w endpoint headers pl = Raise e ->
     exists msg cause, e = SystemExit msg cause).
Proof.
  unfold RequestSender.send.
  destruct (requests_post w endpoint headers pl) as [|status body].
  - split.
    + intro v. split; [discriminate | intros (st & H & _); discriminate].
    + intros e H. injection H as <-. eauto.
  - destruct (raise_for_status_cases status) as [[-> Hst] | [-> Hst]].
    + split.
      * intro v. split.
        -- destruct body as [b|]; [|discriminate].
           intro H. injection H as <-. now exists status.
        -- intros (st & H & _). injection H as _ ->. reflexivity.
      * intros e H. destruct body as [b|]; [discriminate|].
        injection H as <-. eauto.
    + split.
      * intro v. split; [discriminate|].
        intros (st & H & Hn). injection H as -> _. contradiction.
      * intros e H. injection H as <-. eauto.
Qed.

(** ** Answering a query, continued *)

Lemma send_failure_exits w rag query retrieved :
  completion_fails
    (requests_post w (SimpleRAG.api_url rag) (headers_of rag)
                   (request_of rag query retrieved)) ->
  exists msg cause,
    SimpleRAG.generate_response w rag query retrieved = Raise (SystemExit msg cause).
Proof.
  intro Hfail.
  unfold SimpleRAG.generate_response, EndPoint.send, RequestSender.send.
  change (requests_post w _ _ _)
    with (requests_post w (SimpleRAG.api_url rag) (headers_of rag)
                        (request_of rag query retrieved)).
  destruct (requests_post w _ _ _) as [|status body]; simpl in *.
  - eexists; eexists; reflexivity.
  - destruct (RequestSender.raise_for_status status) eqn:E.
    + eexists; eexists; reflexivity.
    + destruct Hfail as [Hst| ->]; [|eexists; eexists; reflexivity].
      unfold RequestSender.raise_for_status in E.
      assert (H1 : Nat.leb 400 status = true) by (apply Nat.leb_le; lia).
      assert (H2 : Nat.ltb status 600 = true) by (apply Nat.ltb_lt; lia).
      rewrite H1, H2 in E. discriminate.
Qed.

(** X7: when the endpoint answers with a status outside 400..599 and a
    JSON object that has [message.content], [generate_response] returns
    that content, whatever kind of JSON value it is. *)
Theorem X7_generate_response_returns_content
        (w : World) (rag : SimpleRAG.t) (query retrieved : string)
        (status : nat) (v m text : json) :
  requests_post w (SimpleRAG.api_url rag) (headers_of rag)
                (request_of rag query retrieved) = HttpResponse status (Some v) ->
  ~ (400 <= status < 600) ->
  getitem v "message" = Ok m ->
  getitem m "content" = Ok text ->
  SimpleRAG.generate_response w rag query retrieved = Ok (Some text).
Proof.
  intros Hpost Hst Hm Hc.
  unfold SimpleRAG.generate_response, EndPoint.send, RequestSender.send.
  change (requests_post w _ _ _)
    with (requests_post w (SimpleRAG.api_url rag) (headers_of rag)
                        (request_of rag query retrieved)).
  rewrite Hpost.
  destruct (raise_for_status_cases status) as [[-> _] | [_ H]]; [|contradiction].
  cbn [rbind]. rewrite Hm. cbn [rbind]. now rewrite Hc.
Qed.

Lemma X7_generate_response_returns_content_witness :
  SimpleRAG.generate_response (Sample.world Sample.reply) Sample.rag
    "tell me about pets" "cats are mammals" = Ok (Some (JStr "Cats.")).
Proof.
  apply (@X7_generate_response_returns_content (Sample.world Sample.reply)
           Sample.rag "tell me about pets" "cats are mammals" 200
           (JObj [("message",
                   JObj [("role", JStr "assistant"); ("content", JStr "Cats.")])])
           (JObj [("role", JStr "assistant"); ("content", JStr "Cats.")])
           (JStr "Cats.")).
  - reflexivity.
  - lia.
  - reflexivity.
  - reflexivity.
Defined.

(** X8: [generate_response] never lets an [Exception] out: if it raises,
    the completion call failed (no response, a 4xx or 5xx status, or a
    body that is not JSON) and what it raises is the [SystemExit] of
    [RequestSender.send]. *)
Theorem X8_generate_response_raises_only_exit
        (w : World) (rag : SimpleRAG.t) (query retrieved : string) (e : exn) :
  SimpleRAG.generate_response w rag query retrieved = Raise e ->
  (exists msg cause, e = SystemExit msg cause) /\
  completion_fails
    (requests_post w (SimpleRAG.api_url rag) (headers_of rag)
                   (request_of rag query retrieved)).
Proof.
  unfold SimpleRAG.generate_response, EndPoint.send, RequestSender.send.
  change (requests_post w _ _ _)
    with (requests_post w (SimpleRAG.api_url rag) (headers_of rag)
                        (request_of rag query retrieved)).
  destruct (requests_post w _ _ _) as [|status body]; simpl.
  - intro H. injection H as <-. split; [eauto | exact I].
  - destruct (raise_for_status_cases status) as [[-> Hst] | [-> Hst]].
    + destruct body as [v|].
      * cbn [rbind].
        destruct (getitem v "message") as [m|x] eqn:Em; cbn [rbind].
        -- destruct (getitem m "content") as [t|x] eqn:Ec; [discriminate|].
           rewrite (getitem_raises_exception _ _ Ec). discriminate.
        -- rewrite (getitem_raises_exception _ _ Em). discriminate.
      * intro H. injection H as <-. split; [eauto | now right].
    + intro H. injection H as <-. split; [eauto | now left].
Qed.

Lemma X8_generate_response_raises_only_exit_witness :
  (exists msg cause,
     SystemExit "Failed to parse the response as JSON." None = SystemExit msg cause) /\
  completion_fails
    (requests_post (Sample.world (HttpResponse 200 None))
       (SimpleRAG.api_url Sample.rag) (headers_of Sample.rag)
       (request_of Sample.rag "q" "text")).
Proof.
  apply (@X8_generate_response_raises_only_exit
           (Sample.world (HttpResponse 200 None)) Sample.rag "q" "text").
  reflexivity.
Defined.

Lemma read_titles_failure w dir pre : forall title post texts e acc,
  contents_of w dir pre texts ->
  open_read w (os_path_join dir title) = Raise e ->
  SimpleRAG.read_titles w dir (pre ++ title :: post) acc = Raise e.
Proof.
  induction pre as [|t pre IH]; intros title post texts e acc Hc Hfail.
  - simpl. now rewrite Hfail.
  - inversion Hc as [|? text ? texts' Ht Hc']; subst.
    simpl. rewrite Ht. cbn [rbind]. eapply IH; eauto.
Qed.

(** X9: [retrieve] gives no partial result: if the search returned
    titles and one of their files cannot be opened in the processor's
    directory, [retrieve] raises the error of the first such file, however
    many were read before it. *)
Theorem X9_retrieve_fails_on_missing_document
        (w : World) (rag : SimpleRAG.t) (query : string) (v : ndarray)
        (pre : list string) (title : string) (post texts : list string)
        (e : exn) :
  TextEmbedder.embed_text w (SimpleRAG.embedder rag) query = Ok v ->
  QdrantIndex.search (SimpleRAG.index rag) (flatten v) (SimpleRAG.top_n rag)
  = Ok (pre ++ title :: post) ->
  contents_of w (DocumentProcessor.documents_dir (SimpleRAG.processor rag)) pre texts ->
  open_read w (os_path_join (DocumentProcessor.documents_dir (SimpleRAG.processor rag))
                            title) = Raise e ->
  SimpleRAG.retrieve w rag query = Raise e.
Proof.
  intros Hv Hs Hc Hfail.
  unfold SimpleRAG.retrieve. rewrite Hv. cbn [rbind]. rewrite Hs. cbn [rbind].
  rewrite (@read_titles_failure w _ pre title post texts e "" Hc Hfail).
  reflexivity.
Qed.

(** After [update_documents] towards [empty], the titles of [docs] are
    looked up in [empty]. *)
Lemma X9_retrieve_fails_on_missing_document_witness :
  let rag := SimpleRAG.with_processor
               (DocumentProcessor.set_documents_dir "empty"
                  (SimpleRAG.processor Sample.rag)) Sample.rag in
  SimpleRAG.retrieve (Sample.world Sample.reply) rag "tell me about pets"
  = Raise (OSError "No such file or directory").
Proof.
  intro rag.
  apply (@X9_retrieve_fails_on_missing_document (Sample.world Sample.reply) rag
           "tell me about pets" (Arr2 [[2; 1]%Q]) [] "a.txt" ["b.txt"] []).
  - reflexivity.
  - reflexivity.
  - constructor.
  - reflexivity.
Defined.

(** ** Building and rebuilding, continued *)

(** X10: [update_documents] towards another directory does not replace
    the document set: the titles are the earlier ones followed by the
    [.txt] files of the new directory, the index is rebuilt with one
    entry per accumulated title, and the processor now points at the new
    directory although the earlier titles come from the old one. *)
Theorem X10_update_documents_accumulates
        (w : World) (D : nat) (dir : string) (names : list string)
        (rag : SimpleRAG.t) :
  os_listdir w dir = Ok names ->
  readable w dir names ->
  fixed_dimension w D ->
  Forall (shaped D) (DocumentProcessor.document_embeddings (SimpleRAG.processor rag)) ->
  DocumentProcessor.document_embeddings (SimpleRAG.processor rag) <> [] ->
  List.length (DocumentProcessor.document_embeddings (SimpleRAG.processor rag))
  = List.length (DocumentProcessor.document_titles (SimpleRAG.processor rag)) ->
  exists rag',
    SimpleRAG.update_documents w dir rag = (Ok tt, rag') /\
    DocumentProcessor.documents_dir (SimpleRAG.processor rag') = dir /\
    DocumentProcessor.document_titles (SimpleRAG.processor rag')
    = DocumentProcessor.document_titles (SimpleRAG.processor rag) ++ txt_files names /\
    map Qdrant.title (Qdrant.points (QdrantIndex.client (SimpleRAG.index rag')))
    = DocumentProcessor.document_titles (SimpleRAG.processor rag) ++ txt_files names.
Proof.
  intros Hlist Hread HD Hold Hne Hlen.
  destruct (scan_readable Hread) as [_ Htitles].
  eexists. split; [apply (rebuild_success (D := D) (names := names)); assumption|].
  cbn [SimpleRAG.processor SimpleRAG.index SimpleRAG.with_index
       SimpleRAG.with_processor index_of QdrantIndex.client Qdrant.points
       extend DocumentProcessor.set_documents_dir DocumentProcessor.documents_dir
       DocumentProcessor.document_titles DocumentProcessor.document_embeddings].
  split; [reflexivity|]. split; [now rewrite Htitles|].
  rewrite make_points_titles, Htitles.
  set (es := DocumentProcessor.document_embeddings _ ++ _).
  set (ts := DocumentProcessor.document_titles _ ++ _).
  assert (Hl : List.length es = List.length ts).
  { unfold es, ts. rewrite !length_app, Hlen, scan_length, Htitles. reflexivity. }
  clearbody es ts. clear - Hl. revert ts Hl.
  induction es as [|e es IH]; intros [|t ts] Hl; simpl in *; try discriminate;
    [reflexivity|].
  f_equal. apply IH. now injection Hl.
Qed.

Lemma X10_update_documents_accumulates_witness :
  exists rag',
    SimpleRAG.update_documents (Sample.world Sample.reply) "docs"
      Fixtures.old_rag = (Ok tt, rag') /\
    DocumentProcessor.documents_dir (SimpleRAG.processor rag') = "docs" /\
    DocumentProcessor.document_titles (SimpleRAG.processor rag')
    = ["old.txt"] ++ txt_files ["a.txt"; "notes.md"; "b.txt"] /\
    map Qdrant.title (Qdrant.points (QdrantIndex.client (SimpleRAG.index rag')))
    = ["old.txt"] ++ txt_files ["a.txt"; "notes.md"; "b.txt"].
Proof.
  apply (@X10_update_documents_accumulates (Sample.world Sample.reply) 2 "docs"
           ["a.txt"; "notes.md"; "b.txt"] Fixtures.old_rag).
  - reflexivity.
  - apply example_readable.
  - apply example_fixed_dimension.
  - repeat constructor. eexists. split; reflexivity.
  - discriminate.
  - reflexivity.
Defined.

Lemma combine_snd_same_length {A B} (l : list A) : forall (l' : list B),
  List.length l = List.length l' -> map snd (combine l l') = l'.
Proof.
  induction l as [|x l IH]; intros [|y l'] H; simpl in *; try discriminate;
    [reflexivity|].
  f_equal. apply IH. now injection H.
Qed.

(** X11: on an orchestrator that holds documents, [update_documents]
    towards a directory without [.txt] files reports nothing: it returns
    normally, keeps every title, fills the new index from the documents
    it already had, and leaves the processor pointing at the new
    directory. *)
Theorem X11_update_documents_to_empty_directory
        (w : World) (D : nat) (dir : string) (names : list string)
        (rag : SimpleRAG.t) :
  os_listdir w dir = Ok names ->
  txt_files names = [] ->
  Forall (shaped D) (DocumentProcessor.document_embeddings (SimpleRAG.processor rag)) ->
  DocumentProcessor.document_embeddings (SimpleRAG.processor rag) <> [] ->
  exists rag',
    SimpleRAG.update_documents w dir rag = (Ok tt, rag') /\
    DocumentProcessor.documents_dir (SimpleRAG.processor rag') = dir /\
    DocumentProcessor.document_titles (SimpleRAG.processor rag')
    = DocumentProcessor.document_titles (SimpleRAG.processor rag) /\
    DocumentProcessor.document_embeddings (SimpleRAG.processor rag')
    = DocumentProcessor.document_embeddings (SimpleRAG.processor rag) /\
    SimpleRAG.index rag' = index_of D (SimpleRAG.processor rag).
Proof.
  intros Hlist Hnone Hold Hne.
  set (p := DocumentProcessor.set_documents_dir dir (SimpleRAG.processor rag)).
  assert (Hp : DocumentProcessor.process_documents w p = (Ok tt, p)).
  { rewrite process_documents_scan. unfold p at 1.
    cbn [DocumentProcessor.set_documents_dir DocumentProcessor.documents_dir].
    rewrite Hlist. cbv zeta. rewrite (scan_no_txt w _ _ Hnone).
    cbn [fst snd]. rewrite extend_nil. now rewrite nonempty_match. }
  exists (SimpleRAG.with_index (index_of D p) (SimpleRAG.with_processor p rag)).
  split; [|repeat split].
  unfold SimpleRAG.update_documents. py_run.
  cbn [SimpleRAG.processor SimpleRAG.with_processor]. fold p. rewrite Hp.
  cbn [SimpleRAG.processor SimpleRAG.with_processor].
  rewrite (first_dimension_shaped (D := D) p) by assumption.
  cbn [SimpleRAG.index SimpleRAG.with_index SimpleRAG.processor].
  rewrite (add_embeddings_shaped _ Hold). reflexivity.
Qed.

Lemma X11_update_documents_to_empty_directory_witness :
  exists rag',
    SimpleRAG.update_documents (Sample.world Sample.reply) "empty" Sample.rag
    = (Ok tt, rag') /\
    DocumentProcessor.documents_dir (SimpleRAG.processor rag') = "empty" /\
    DocumentProcessor.document_titles (SimpleRAG.processor rag')
    = DocumentProcessor.document_titles (SimpleRAG.processor Sample.rag) /\
    DocumentProcessor.document_embeddings (SimpleRAG.processor rag')
    = DocumentProcessor.document_embeddings (SimpleRAG.processor Sample.rag) /\
    SimpleRAG.index rag' = index_of 2 (SimpleRAG.processor Sample.rag).
Proof.
  apply (@X11_update_documents_to_empty_directory (Sample.world Sample.reply) 2
           "empty" ["readme.md"] Sample.rag).
  - reflexivity.
  - reflexivity.
  - repeat constructor; eexists; split; reflexivity.
  - discriminate.
Defined.

(** X12: [update_documents] binds the new index before it fills it:
    when processing succeeded and [add_embeddings] raises, the error
    reaches the caller and the orchestrator holds the index that was
    just created, in the state the failed call left it in; the earlier
    index is gone and the processor keeps what the pass appended. *)
Theorem X12_failed_fill_replaces_index
        (w : World) (rag : SimpleRAG.t) (dir : string)
        (p' : DocumentProcessor.t) (D : nat) (e : exn) :
  DocumentProcessor.process_documents w
    (DocumentProcessor.set_documents_dir dir (SimpleRAG.processor rag)) = (Ok tt, p') ->
  SimpleRAG.first_dimension p' = Ok D ->
  fst (QdrantIndex.add_embeddings (DocumentProcessor.document_embeddings p')
         (DocumentProcessor.document_titles p') (QdrantIndex.init D)) = Raise e ->
  exists rag',
    SimpleRAG.update_documents w dir rag = (Raise e, rag') /\
    SimpleRAG.processor rag' = p' /\
    SimpleRAG.index rag'
    = snd (QdrantIndex.add_embeddings (DocumentProcessor.document_embeddings p')
             (DocumentProcessor.document_titles p') (QdrantIndex.init D)).
Proof.
  intros Hp Hd Hadd.
  unfold SimpleRAG.update_documents. py_run.
  cbn [SimpleRAG.processor SimpleRAG.with_processor]. rewrite Hp.
  cbn [SimpleRAG.processor SimpleRAG.with_processor]. rewrite Hd.
  cbn [SimpleRAG.index SimpleRAG.with_index SimpleRAG.processor].
  destruct (QdrantIndex.add_embeddings _ _ _) as [r i]; simpl in Hadd. subst r.
  eexists. split; [reflexivity|]. split; reflexivity.
Qed.

(** The orchestrator with a three-component embedding, rebuilt over the
    two-component documents of [docs]. *)
Lemma X12_failed_fill_replaces_index_witness :
  exists rag',
    SimpleRAG.update_documents (Sample.world Sample.reply) "docs" Fixtures.uneven_rag
    = (Raise (QdrantError "vector dimension mismatch"), rag') /\
    SimpleRAG.processor rag'
    = snd (DocumentProcessor.process_documents (Sample.world Sample.reply)
             (DocumentProcessor.set_documents_dir "docs"
                (SimpleRAG.processor Fixtures.uneven_rag))) /\
    SimpleRAG.index rag' = QdrantIndex.init 3.
Proof.
  exact (@X12_failed_fill_replaces_index (Sample.world Sample.reply)
           Fixtures.uneven_rag "docs"
           (snd (DocumentProcessor.process_documents (Sample.world Sample.reply)
                   (DocumentProcessor.set_documents_dir "docs"
                      (SimpleRAG.processor Fixtures.uneven_rag))))
           3 (QdrantError "vector dimension mismatch")
           eq_refl eq_refl eq_refl).
Defined.

(** X13: what [create_simple_rag] does with a failed processing pass
    depends on the class of the error only: any [ValueError] -- the one
    for an empty document set, but also the [UnicodeDecodeError] of a
    file that is not UTF-8 -- gives [None]; every other exception reaches
    the caller. *)
Theorem X13_create_simple_rag_on_failed_pass
        (w : World) (dir api_key api_url token model : string)
        (temperature top_p : Q) (max_tokens : nat)
        (e : exn) (p' : DocumentProcessor.t) :
  from_pretrained w embedding_model token = Ok tt ->
  DocumentProcessor.process_documents w
    (DocumentProcessor.init dir {| TextEmbedder.model_name := embedding_model;
                                   TextEmbedder.token := token |}) = (Raise e, p') ->
  create_simple_rag w dir api_key api_url token model temperature top_p max_tokens
  = if isinstance_ValueError e then Ok None else Raise e.
Proof.
  intros Hload Hp.
  unfold create_simple_rag, TextEmbedder.init.
  change "sentence-transformers/paraphrase-MiniLM-L6-v2" with embedding_model.
  rewrite Hload. cbn [rbind]. now rewrite Hp.
Qed.

Lemma X13_create_simple_rag_on_failed_pass_witness :
  Sample.build (Sample.world Sample.reply) "bad" = Ok None /\
  Sample.build (Sample.world Sample.reply) "nowhere"
  = Raise (OSError "No such file or directory").
Proof.
  split.
  - apply (@X13_create_simple_rag_on_failed_pass (Sample.world Sample.reply)
             "bad" "key" "http://localhost:11434/api/chat" "hf" "mistral"
             (7 # 10)%Q (1 # 2)%Q 800 UnicodeDecodeError
             (snd (DocumentProcessor.process_documents (Sample.world Sample.reply)
                     (DocumentProcessor.init "bad" Sample.embedder))));
      reflexivity.
  - apply (@X13_create_simple_rag_on_failed_pass (Sample.world Sample.reply)
             "nowhere" "key" "http://localhost:11434/api/chat" "hf" "mistral"
             (7 # 10)%Q (1 # 2)%Q 800 (OSError "No such file or directory")
             (DocumentProcessor.init "nowhere" Sample.embedder));
      reflexivity.
Defined.

(** X14: every orchestrator [create_simple_rag] returns retrieves three
    titles at most per query ([top_n] is 3), carries the given key and
    URL, points at the given directory, whose listing has at least one
    [.txt] name; its titles are those names in listing order and its
    index holds, under the ids 0, 1, ..., exactly these titles. *)
Theorem X14_create_simple_rag_result
        (w : World) (dir api_key api_url token model : string)
        (temperature top_p : Q) (max_tokens : nat) (rag : SimpleRAG.t) :
  create_simple_rag w dir api_key api_url token model temperature top_p max_tokens
  = Ok (Some rag) ->
  exists names,
    os_listdir w dir = Ok names /\
    txt_files names <> [] /\
    DocumentProcessor.document_titles (SimpleRAG.processor rag) = txt_files names /\
    DocumentProcessor.documents_dir (SimpleRAG.processor rag) = dir /\
    SimpleRAG.top_n rag = 3 /\
    SimpleRAG.api_key rag = api_key /\
    SimpleRAG.api_url rag = api_url /\
    map Qdrant.title (Qdrant.points (QdrantIndex.client (SimpleRAG.index rag)))
    = txt_files names /\
    map Qdrant.id (Qdrant.points (QdrantIndex.client (SimpleRAG.index rag)))
    = seq 0 (List.length (txt_files names)).
Proof.
  unfold create_simple_rag. intro H.
  destruct (TextEmbedder.init w _ token) as [emb|x]; [|discriminate].
  cbn [rbind] in H.
  rewrite process_documents_scan in H.
  cbn [DocumentProcessor.init DocumentProcessor.documents_dir] in H.
  destruct (os_listdir w dir) as [names|x];
    [|destruct (isinstance_ValueError x); discriminate].
  cbv zeta in H.
  destruct (snd (scan w dir names)) as [x|] eqn:Hs;
    [destruct (isinstance_ValueError x); discriminate|].
  pose proof (scan_complete _ _ _ Hs) as Htitles.
  set (p := extend _ _) in H.
  assert (Hes : DocumentProcessor.document_embeddings p = map snd (fst (scan w dir names)))
    by reflexivity.
  assert (Hts : DocumentProcessor.document_titles p = txt_files names)
    by (cbn; exact Htitles).
  destruct (DocumentProcessor.document_embeddings p) as [|e0 es] eqn:He;
    [discriminate|].
  destruct (SimpleRAG.first_dimension p) as [d|x]; [|discriminate].
  cbn [rbind] in H.
  unfold QdrantIndex.add_embeddings, Qdrant.upsert in H.
  destruct (forallb _ _); [|discriminate].
  injection H as <-.
  cbn [SimpleRAG.init SimpleRAG.processor SimpleRAG.index SimpleRAG.top_n
       SimpleRAG.api_key SimpleRAG.api_url SimpleRAG.default
       QdrantIndex.client QdrantIndex.init Qdrant.points Qdrant.create_collection].
  rewrite upsert_all_new; [| apply make_points_NoDup | intros q _ []].
  cbn [app].
  assert (Hlen : List.length (e0 :: es) = List.length (txt_files names)).
  { rewrite Hes, scan_length, Htitles. reflexivity. }
  exists names. split; [reflexivity|].
  split.
  { intro H0. rewrite H0 in Hlen. discriminate. }
  split; [exact Hts|]. split; [reflexivity|].
  split; [reflexivity|]. split; [reflexivity|]. split; [reflexivity|].
  rewrite Htitles. rewrite <- Hes. split.
  - rewrite make_points_titles. now apply combine_snd_same_length.
  - rewrite make_points_ids, length_combine, Hlen. now rewrite Nat.min_id.
Qed.

Lemma X14_create_simple_rag_result_witness :
  exists names,
    os_listdir (Sample.world Sample.reply) "docs" = Ok names /\
    txt_files names <> [] /\
    DocumentProcessor.document_titles (SimpleRAG.processor Sample.rag) = txt_files names /\
    DocumentProcessor.documents_dir (SimpleRAG.processor Sample.rag) = "docs" /\
    SimpleRAG.top_n Sample.rag = 3 /\
    SimpleRAG.api_key Sample.rag = "key" /\
    SimpleRAG.api_url Sample.rag = "http://localhost:11434/api/chat" /\
    map Qdrant.title (Qdrant.points (QdrantIndex.client (SimpleRAG.index Sample.rag)))
    = txt_files names /\
    map Qdrant.id (Qdrant.points (QdrantIndex.client (SimpleRAG.index Sample.rag)))
    = seq 0 (List.length (txt_files names)).
Proof.
  apply (@X14_create_simple_rag_result (Sample.world Sample.reply) "docs" "key"
           "http://localhost:11434/api/chat" "hf" "mistral" (7 # 10)%Q (1 # 2)%Q 800).
  reflexivity.
Defined.

(** ** The command line program *)

Lemma create_simple_rag_without_txt
      w dir names api_key api_url token model temperature top_p max_tokens :
  from_pretrained w embedding_model token = Ok tt ->
  os_listdir w dir = Ok names ->
  txt_files names = [] ->
  create_simple_rag w dir api_key api_url token model temperature top_p max_tokens
  = Ok None.
Proof.
  intros Hload Hlist Hnone.
  unfold create_simple_rag, TextEmbedder.init.
  change "sentence-transformers/paraphrase-MiniLM-L6-v2" with embedding_model.
  rewrite Hload. cbn [rbind].
  rewrite process_documents_scan.
  cbn [DocumentProcessor.init DocumentProcessor.documents_dir].
  rewrite Hlist. cbv zeta. rewrite (scan_no_txt w dir _ Hnone).
  reflexivity.
Qed.

(** X15: if one of [API_KEY], [API_URL] and [HUGGINGFACE_TOKEN] is unset
    or set to the empty string, [main] raises the [EnvironmentError]
    whose message lists the unset ones, this one among them, before it
    looks at the command line, the model or the directory. *)
Theorem X15_main_requires_environment
        (w : World) (p : Main.Process) (var : string) :
  In var Main.required_env_vars ->
  Main.unset p var = true ->
  Main.main w p
  = ([], Main.Uncaught (OSError (Main.env_error_msg (Main.missing_vars p)))) /\
  In var (Main.missing_vars p).
Proof.
  intros Hin Hun.
  assert (Hmem : In var (Main.missing_vars p))
    by (apply filter_In; now split).
  split; [|exact Hmem].
  unfold Main.main.
  destruct (Main.missing_vars p) as [|m ms]; [contradiction | reflexivity].
Qed.

Lemma X15_main_requires_environment_witness :
  Main.main (Sample.world Sample.reply) Fixtures.process_without_url
  = ([], Main.Uncaught
           (OSError "Required environment variables are not set: API_URL, HUGGINGFACE_TOKEN")) /\
  In "API_URL" (Main.missing_vars Fixtures.process_without_url).
Proof.
  apply (@X15_main_requires_environment (Sample.world Sample.reply)
           Fixtures.process_without_url "API_URL").
  - right. left. reflexivity.
  - reflexivity.
Defined.

(** X16: with the environment set and a directory that has no [.txt]
    file, [main] ends with exit status 1; it prints neither a response
    nor titles and does not ask for a query. *)
Theorem X16_main_exits_without_documents
        (w : World) (p : Main.Process) (dir : string) (names : list string) :
  Main.missing_vars p = [] ->
  Main.documents_dir_arg p = Some dir ->
  from_pretrained w embedding_model (Main.env_value p "HUGGINGFACE_TOKEN") = Ok tt ->
  os_listdir w dir = Ok names ->
  txt_files names = [] ->
  Main.main w p = ([], Main.Exited 1).
Proof.
  intros Henv Harg Hload Hlist Hnone.
  unfold Main.main. rewrite Henv, Harg.
  now rewrite (@create_simple_rag_without_txt w dir names _ _ _ _ _ _ _
                 Hload Hlist Hnone).
Qed.

Lemma X16_main_exits_without_documents_witness :
  Main.main (Sample.world Sample.reply) Fixtures.process_on_empty
  = ([], Main.Exited 1).
Proof.
  apply (@X16_main_exits_without_documents (Sample.world Sample.reply)
           Fixtures.process_on_empty "empty" ["readme.md"]);
    reflexivity.
Defined.

(** X17: when the completion call fails, the [SystemExit] of
    [RequestSender.send] passes the [except Exception] of [main] as well:
    the program ends with it and prints neither a response nor the
    titles it retrieved. *)
Theorem X17_main_dies_on_completion_failure
        (w : World) (p : Main.Process) (rag : SimpleRAG.t)
        (query retrieved : string) (titles : list string) :
  main_builds w p rag ->
  Main.input p = Some query ->
  SimpleRAG.retrieve w rag query = Ok (retrieved, titles) ->
  completion_fails
    (requests_post w (SimpleRAG.api_url rag) (headers_of rag)
                   (request_of rag query retrieved)) ->
  exists msg cause,
    Main.main w p = ([], Main.Uncaught (SystemExit msg cause)).
Proof.
  intros (Henv & dir & Harg & Hbuild) Hin Hret Hfail.
  destruct (send_failure_exits w rag query retrieved Hfail) as (msg & cause & Hgen).
  exists msg, cause.
  unfold Main.main. rewrite Henv, Harg, Hbuild, Hin, Hret, Hgen. reflexivity.
Qed.

Lemma X17_main_dies_on_completion_failure_witness :
  exists msg cause,
    Main.main (Sample.world (HttpResponse 503 None)) Fixtures.process
    = ([], Main.Uncaught (SystemExit msg cause)).
Proof.
  apply (@X17_main_dies_on_completion_failure
           (Sample.world (HttpResponse 503 None)) Fixtures.process Fixtures.rag
           "tell me about pets"
           ("cats are mammals" ++ nl ++ "rockets use fuel" ++ nl)
           ["a.txt"; "b.txt"]).
  - split; [reflexivity|]. exists "docs". split; reflexivity.
  - reflexivity.
  - reflexivity.
  - simpl. left. lia.
Defined.

(** X18: an [Exception] raised while retrieving -- the query cannot be
    embedded, the search fails, a document cannot be opened -- is logged
    and swallowed by [main]: it returns normally and prints neither a
    response nor titles. *)
Theorem X18_main_swallows_retrieval_errors
        (w : World) (p : Main.Process) (rag : SimpleRAG.t)
        (query : string) (e : exn) :
  main_builds w p rag ->
  Main.input p = Some query ->
  SimpleRAG.retrieve w rag query = Raise e ->
  isinstance_Exception e = true ->
  Main.main w p = ([], Main.Returned).
Proof.
  intros (Henv & dir & Harg & Hbuild) Hin Hret He.
  unfold Main.main, Main.handled.
  rewrite Henv, Harg, Hbuild, Hin, Hret, He. reflexivity.
Qed.

Lemma X18_main_swallows_retrieval_errors_witness :
  Main.main Fixtures.moody_world Fixtures.process = ([], Main.Returned).
Proof.
  apply (@X18_main_swallows_retrieval_errors Fixtures.moody_world
           Fixtures.process Fixtures.rag "tell me about pets"
           (RuntimeError "tokenizer failure")).
  - split; [reflexivity|]. exists "docs". split; reflexivity.
  - reflexivity.
  - reflexivity.
  - reflexivity.
Defined.

(** X19: when the endpoint returns a content, [main] prints the titles
    last and returns; the response line is printed only if the content
    is true as a Python value, so an empty string as content prints the
    titles alone. *)
Theorem X19_main_prints_response_if_truthy
        (w : World) (p : Main.Process) (rag : SimpleRAG.t)
        (query retrieved : string) (titles : list string) (v : json) :
  main_builds w p rag ->
  Main.input p = Some query ->
  SimpleRAG.retrieve w rag query = Ok (retrieved, titles) ->
  SimpleRAG.generate_response w rag query retrieved = Ok (Some v) ->
  Main.main w p
  = ((if Main.truthy v then [Main.PrintResponse v] else [])
       ++ [Main.PrintTitles titles], Main.Returned).
Proof.
  intros (Henv & dir & Harg & Hbuild) Hin Hret Hgen.
  unfold Main.main. rewrite Henv, Harg, Hbuild, Hin, Hret, Hgen. reflexivity.
Qed.

Lemma X19_main_prints_response_if_truthy_witness :
  Main.main (Sample.world Fixtures.empty_reply) Fixtures.process
  = ([Main.PrintTitles ["a.txt"; "b.txt"]], Main.Returned) /\
  Main.main (Sample.world Sample.reply) Fixtures.process
  = ([Main.PrintResponse (JStr "Cats."); Main.PrintTitles ["a.txt"; "b.txt"]],
     Main.Returned).
Proof.
  split.
  - apply (@X19_main_prints_response_if_truthy (Sample.world Fixtures.empty_reply)
             Fixtures.process Fixtures.rag "tell me about pets"
             ("cats are mammals" ++ nl ++ "rockets use fuel" ++ nl)
             ["a.txt"; "b.txt"] (JStr "")).
    + split; [reflexivity|]. exists "docs". split; reflexivity.
    + reflexivity.
    + reflexivity.
    + reflexivity.
  - apply (@X19_main_prints_response_if_truthy (Sample.world Sample.reply)
             Fixtures.process Fixtures.rag "tell me about pets"
             ("cats are mammals" ++ nl ++ "rockets use fuel" ++ nl)
             ["a.txt"; "b.txt"] (JStr "Cats.")).
    + split; [reflexivity|]. exists "docs". split; reflexivity.
    + reflexivity.
    + reflexivity.
    + reflexivity.
Defined.

(** ** The model listing *)

Lemma names_of_all l : forall names,
  Forall2 (fun model name => getitem model "name" = Ok name) l names ->
  Utils.names_of l = Ok names.
Proof.
  induction l as [|m l IH]; intros names H; inversion H as [|? n ? ns Hm Hl]; subst;
    simpl; [reflexivity|].
  rewrite Hm. cbn [rbind]. rewrite (IH _ Hl). reflexivity.
Qed.

Lemma names_of_failure pre : forall names m post e,
  Forall2 (fun model name => getitem model "name" = Ok name) pre names ->
  getitem m "name" = Raise e ->
  Utils.names_of (pre ++ m :: post) = Raise e.
Proof.
  induction pre as [|x pre IH]; intros names m post e H Hm;
    inversion H as [|? n ? ns Hx Hl]; subst; simpl.
  - now rewrite Hm.
  - rewrite Hx. cbn [rbind]. now rewrite (IH _ _ _ _ Hl Hm).
Qed.

(** X20: [fetch_ollama_models] only accepts status 200: for any other
    status, success codes like 201 or 204 included, it returns the empty
    list and shows the error message, without looking at the body. *)
Theorem X20_fetch_needs_status_200
        (requests_get : string -> list (string * string) -> http_result)
        (api_url api_key : string) (status : nat) (body : option json) :
  requests_get (api_url ++ "/api/tags")%string
               [("Authorization", ("Bearer " ++ api_key)%string)]
  = HttpResponse status body ->
  status <> 200 ->
  Utils.fetch_ollama_models requests_get api_url api_key
  = (inl [], [Utils.fetch_error]).
Proof.
  intros Hget Hst. unfold Utils.fetch_ollama_models. rewrite Hget.
  apply Nat.eqb_neq in Hst. now rewrite Hst.
Qed.

Lemma X20_fetch_needs_status_200_witness :
  Utils.fetch_ollama_models (fun _ _ => HttpResponse 204 (Some Fixtures.tags))
    "http://localhost:11434" "key"
  = (inl [], [Utils.fetch_error]).
Proof.
  apply (@X20_fetch_needs_status_200 _ "http://localhost:11434" "key" 204
           (Some Fixtures.tags)).
  - reflexivity.
  - discriminate.
Defined.

(** X21: for a 200 answer whose JSON object has a list under [models],
    each item of which has a [name], [fetch_ollama_models] returns these
    names, one per item and in the order of the list, and shows no
    error. *)
Theorem X21_fetch_returns_names_in_order
        (requests_get : string -> list (string * string) -> http_result)
        (api_url api_key : string) (v : json) (models names : list json) :
  requests_get (api_url ++ "/api/tags")%string
               [("Authorization", ("Bearer " ++ api_key)%string)]
  = HttpResponse 200 (Some v) ->
  getitem v "models" = Ok (JArr models) ->
  Forall2 (fun model name => getitem model "name" = Ok name) models names ->
  Utils.fetch_ollama_models requests_get api_url api_key = (inl names, []) /\
  List.length names = List.length models.
Proof.
  intros Hget Hm Hnames.
  split; [|symmetry; exact (Forall2_length Hnames)].
  unfold Utils.fetch_ollama_models. rewrite Hget. cbn [Nat.eqb].
  destruct v as [| | | | |fields]; try discriminate Hm.
  simpl in Hm. cbn [Utils.get_default].
  destruct (assoc_get "models" fields) as [x|]; [|discriminate].
  injection Hm as ->. cbn [Utils.iterate].
  now rewrite (names_of_all Hnames).
Qed.

Lemma X21_fetch_returns_names_in_order_witness :
  Utils.fetch_ollama_models (fun _ _ => HttpResponse 200 (Some Fixtures.tags))
    "http://localhost:11434" "key"
  = (inl [JStr "llama3.2"; JStr "mistral"], []) /\
  List.length [JStr "llama3.2"; JStr "mistral"] = 2.
Proof.
  apply (@X21_fetch_returns_names_in_order
           (fun _ _ => HttpResponse 200 (Some Fixtures.tags))
           "http://localhost:11434" "key" Fixtures.tags
           [ JObj [("name", JStr "llama3.2"); ("size", JNum (2 # 1))];
             JObj [("name", JStr "mistral")] ]
           [JStr "llama3.2"; JStr "mistral"]).
  - reflexivity.
  - reflexivity.
  - repeat constructor.
Defined.

(** X22: a 200 answer whose JSON object has no [models] key gives the
    empty list without any error message, as if the server had no
    models. *)
Theorem X22_fetch_without_models_key
        (requests_get : string -> list (string * string) -> http_result)
        (api_url api_key : string) (fields : list (string * json)) :
  requests_get (api_url ++ "/api/tags")%string
               [("Authorization", ("Bearer " ++ api_key)%string)]
  = HttpResponse 200 (Some (JObj fields)) ->
  assoc_get "models" fields = None ->
  Utils.fetch_ollama_models requests_get api_url api_key = (inl [], []).
Proof.
  intros Hget Hnone. unfold Utils.fetch_ollama_models.
  rewrite Hget. cbn [Nat.eqb Utils.get_default]. now rewrite Hnone.
Qed.

Lemma X22_fetch_without_models_key_witness :
  Utils.fetch_ollama_models
    (fun _ _ => HttpResponse 200 (Some (JObj [("error", JStr "unauthorized")])))
    "http://localhost:11434" "key"
  = (inl [], []).
Proof.
  apply (@X22_fetch_without_models_key _ "http://localhost:11434" "key"
           [("error", JStr "unauthorized")]);
    reflexivity.
Defined.

(** X23: one item without a [name] spoils the whole listing: if the
    items before it have names and it has none, [fetch_ollama_models]
    raises what the subscript raised -- [KeyError] for a dict without the
    key -- and returns no name at all. *)
Theorem X23_fetch_fails_on_nameless_item
        (requests_get : string -> list (string * string) -> http_result)
        (api_url api_key : string) (v : json)
        (pre : list json) (m : json) (post names : list json) (e : exn) :
  requests_get (api_url ++ "/api/tags")%string
               [("Authorization", ("Bearer " ++ api_key)%string)]
  = HttpResponse 200 (Some v) ->
  getitem v "models" = Ok (JArr (pre ++ m :: post)) ->
  Forall2 (fun model name => getitem model "name" = Ok name) pre names ->
  getitem m "name" = Raise e ->
  Utils.fetch_ollama_models requests_get api_url api_key = (inr (Utils.Py e), []).
Proof.
  intros Hget Hm Hpre He.
  unfold Utils.fetch_ollama_models. rewrite Hget. cbn [Nat.eqb].
  destruct v as [| | | | |fields]; try discriminate Hm.
  simpl in Hm. cbn [Utils.get_default].
  destruct (assoc_get "models" fields) as [x|]; [|discriminate].
  injection Hm as ->. cbn [Utils.iterate].
  now rewrite (names_of_failure _ _ Hpre He).
Qed.

Lemma X23_fetch_fails_on_nameless_item_witness :
  Utils.fetch_ollama_models
    (fun _ _ => HttpResponse 200 (Some Fixtures.broken_tags))
    "http://localhost:11434" "key"
  = (inr (Utils.Py (KeyError "name")), []).
Proof.
  apply (@X23_fetch_fails_on_nameless_item _ "http://localhost:11434" "key"
           Fixtures.broken_tags
           [JObj [("name", JStr "llama3.2")]]
           (JObj [("model", JStr "mistral")])
           [JObj [("name", JStr "phi3")]]
           [JStr "llama3.2"]).
  - reflexivity.
  - reflexivity.
  - repeat constructor.
  - reflexivity.
Defined.

(** ** The uploaded files *)

Section UploadFacts.

Import App.

Lemma setitem_In {V} (k : string) (v : V) d : forall k' v',
  In (k', v') (setitem k v d) -> (k' = k /\ v' = v) \/ In (k', v') d.
Proof.
  induction d as [|[k0 v0] d IH]; simpl; intros k' v' H.
  - destruct H as [H|[]]. injection H as <- <-. now left.
  - destruct (String.eqb k0 k) eqn:E.
    + apply String.eqb_eq in E. subst k0.
      destruct H as [H|H]; [injection H as <- <-; now left | right; now right].
    + destruct H as [H|H]; [right; now left|].
      destruct (IH _ _ H) as [?|?]; [now left | right; now right].
Qed.

Lemma setitem_has {V} (k : string) (v : V) d : In (k, v) (setitem k v d).
Proof.
  induction d as [|[k0 v0] d IH]; simpl; [now left|].
  destruct (String.eqb k0 k) eqn:E.
  - apply String.eqb_eq in E. subst k0. now left.
  - now right.
Qed.

Lemma setitem_keeps {V} (k : string) (v : V) d k' v' :
  k' <> k -> In (k', v') d -> In (k', v') (setitem k v d).
Proof.
  intro Hne. induction d as [|[k0 v0] d IH]; simpl; [contradiction|].
  intros [H|H].
  - injection H as -> ->.
    destruct (String.eqb k' k) eqn:E; [apply String.eqb_eq in E; contradiction|].
    now left.
  - destruct (String.eqb k0 k); right; auto.
Qed.

Lemma setitem_keys {V} (k : string) (v : V) d k' :
  In k' (map fst (setitem k v d)) <-> k' = k \/ In k' (map fst d).
Proof.
  induction d as [|[k0 v0] d IH]; simpl.
  - intuition congruence.
  - destruct (String.eqb k0 k) eqn:E; simpl.
    + apply String.eqb_eq in E. subst k0. intuition congruence.
    + rewrite IH. intuition congruence.
Qed.

Lemma setitem_NoDup {V} (k : string) (v : V) d :
  NoDup (map fst d) -> NoDup (map fst (setitem k v d)).
Proof.
  induction d as [|[k0 v0] d IH]; simpl; intro H.
  - constructor; [intros [] | constructor].
  - inversion H as [|? ? Hk0 Hd]; subst.
    destruct (String.eqb k0 k) eqn:E; simpl.
    + constructor; assumption.
    + constructor; [|now apply IH].
      rewrite setitem_keys. intros [->|Hin]; [|contradiction].
      rewrite String.eqb_refl in E. discriminate.
Qed.

Lemma collect_keyed l : forall d, keyed d -> keyed (collect l d).
Proof.
  induction l as [|f l IH]; intros d Hd; simpl; [exact Hd|].
  apply IH. destruct Hd as [Hnd Hall]. split; [now apply setitem_NoDup|].
  apply Forall_forall. intros [k v] Hin.
  destruct (setitem_In _ _ _ _ _ Hin) as [[-> ->]|Hin']; [reflexivity|].
  rewrite Forall_forall in Hall. exact (Hall _ Hin').
Qed.

Lemma collect_keys l : forall d k,
  In k (map fst (collect l d)) <-> In k (map fst d) \/ In k (map name l).
Proof.
  induction l as [|f l IH]; intros d k; simpl; [tauto|].
  unfold collect in *. simpl. rewrite IH, setitem_keys. intuition congruence.
Qed.

Lemma collect_values l : forall d kv,
  In kv (collect l d) -> In kv d \/ In (snd kv) l.
Proof.
  induction l as [|f l IH]; intros d [k v] H; simpl in *; [now left|].
  unfold collect in *. simpl in H.
  destruct (IH _ _ H) as [Hin|Hin]; [|right; now right].
  destruct (setitem_In _ _ _ _ _ Hin) as [[-> ->]|Hin']; [right; now left | now left].
Qed.

Lemma collect_keeps l : forall d k v,
  In (k, v) d -> ~ In k (map name l) -> In (k, v) (collect l d).
Proof.
  induction l as [|f l IH]; intros d k v Hin Hk; simpl in *; [exact Hin|].
  unfold collect in *. simpl. apply IH; [|tauto].
  apply setitem_keeps; [|exact Hin]. intro E. apply Hk. now left.
Qed.

Lemma keyed_names d : keyed d -> map name (map snd d) = map fst d.
Proof.
  intros [_ H]. induction H as [|[k v] d Hkv _ IH]; simpl; [reflexivity|].
  simpl in Hkv. now rewrite Hkv, IH.
Qed.

End UploadFacts.

(** X24: the files kept for processing have pairwise different names,
    every uploaded name is the name of one of them, and each of them is
    one of the uploaded files. *)
Theorem X24_unique_files_by_name (uploaded : list App.UploadedFile) :
  NoDup (map App.name (App.unique_files uploaded)) /\
  (forall n, In n (map App.name (App.unique_files uploaded))
             <-> In n (map App.name uploaded)) /\
  incl (App.unique_files uploaded) uploaded.
Proof.
  unfold App.unique_files. fold (collect uploaded []).
  assert (Hk : keyed (collect uploaded [])).
  { apply collect_keyed. split; constructor. }
  rewrite (keyed_names Hk).
  split; [exact (proj1 Hk)|]. split.
  - intro n. rewrite collect_keys. simpl. tauto.
  - intros f Hf. apply in_map_iff in Hf. destruct Hf as ([k v] & <- & Hin).
    destruct (collect_values _ _ _ Hin) as [[]|H]. exact H.
Qed.

(** X25: of several uploads with one name the last one is kept: a file
    after which no file of the same name was uploaded is among the files
    to process. *)
Theorem X25_unique_files_last_wins
        (before : list App.UploadedFile) (f : App.UploadedFile)
        (after : list App.UploadedFile) :
  ~ In (App.name f) (map App.name after) ->
  In f (App.unique_files (before ++ f :: after)).
Proof.
  intro Hlast.
  unfold App.unique_files. fold (collect (before ++ f :: after) []).
  unfold collect. rewrite fold_left_app. simpl.
  apply in_map_iff. exists (App.name f, f). split; [reflexivity|].
  apply (collect_keeps after); [apply setitem_has | exact Hlast].
Qed.

Lemma X25_unique_files_last_wins_witness :
  In {| App.name := "a.txt"; App.buffer := "second" |}
     (App.unique_files Fixtures.uploads).
Proof.
  apply (@X25_unique_files_last_wins
           [ {| App.name := "a.txt"; App.buffer := "first" |};
             {| App.name := "b.txt"; App.buffer := "other" |} ]
           {| App.name := "a.txt"; App.buffer := "second" |} []).
  intros [].
Defined.

(** ** File names *)

Lemma string_length_append (a b : string) :
  String.length (a ++ b) = String.length a + String.length b.
Proof. induction a as [|c a IH]; simpl; [reflexivity | now rewrite IH]. Qed.

Lemma substring_all (s : string) : substring 0 (String.length s) s = s.
Proof. induction s as [|c s IH]; simpl; [reflexivity | now rewrite IH]. Qed.

Lemma substring_after (a : string) : forall m b,
  substring (String.length a) m (a ++ b) = substring 0 m b.
Proof. induction a as [|c a IH]; intros m b; simpl; [reflexivity | apply IH]. Qed.

Lemma substring_split (s : string) : forall k,
  k <= String.length s ->
  (substring 0 k s ++ substring k (String.length s - k) s)%string = s.
Proof.
  induction s as [|c s IH]; intros [|k] H; simpl in *; try lia.
  - reflexivity.
  - now rewrite substring_all.
  - rewrite IH by lia. reflexivity.
Qed.

(** X26: the test that selects the files to process, [endswith], holds
    exactly for the names that are some string, possibly empty, followed
    by the suffix. *)
Theorem X26_endswith_is_suffix (s suffix : string) :
  endswith s suffix = true <-> exists stem, s = (stem ++ suffix)%string.
Proof.
  unfold endswith. split.
  - intro H. apply andb_true_iff in H. destruct H as [Hle Heq].
    apply Nat.leb_le in Hle. apply String.eqb_eq in Heq.
    exists (substring 0 (String.length s - String.length suffix) s).
    rewrite <- Heq at 2.
    pose proof (@substring_split s (String.length s - String.length suffix)) as Hs.
    replace (String.length s - (String.length s - String.length suffix))
      with (String.length suffix) in Hs by lia.
    symmetry. apply Hs. lia.
  - intros [stem ->]. rewrite string_length_append.
    apply andb_true_iff. split; [apply Nat.leb_le; lia|].
    replace (String.length stem + String.length suffix - String.length suffix)
      with (String.length stem) by lia.
    rewrite substring_after, substring_all. apply String.eqb_refl.
Qed.

(** ** Rebuilding and answering, concluded *)

(** X27: whatever [update_documents] does -- return, swallow a
    [ValueError] or raise -- afterwards the processor points at the new
    directory, no earlier title is gone (the old titles are a prefix of
    the new ones), and the embedder, the credentials, [top_n] and the
    sampling parameters are the ones from before. *)
Theorem X27_update_documents_frame
        (w : World) (dir : string) (rag : SimpleRAG.t) :
  let rag' := snd (SimpleRAG.update_documents w dir rag) in
  DocumentProcessor.documents_dir (SimpleRAG.processor rag') = dir /\
  (exists added,
     DocumentProcessor.document_titles (SimpleRAG.processor rag')
     = DocumentProcessor.document_titles (SimpleRAG.processor rag) ++ added) /\
  SimpleRAG.embedder rag' = SimpleRAG.embedder rag /\
  SimpleRAG.api_key rag' = SimpleRAG.api_key rag /\
  SimpleRAG.api_url rag' = SimpleRAG.api_url rag /\
  SimpleRAG.top_n rag' = SimpleRAG.top_n rag /\
  SimpleRAG.model rag' = SimpleRAG.model rag /\
  SimpleRAG.temperature rag' = SimpleRAG.temperature rag /\
  SimpleRAG.top_p rag' = SimpleRAG.top_p rag /\
  SimpleRAG.max_tokens rag' = SimpleRAG.max_tokens rag.
Proof.
  set (p := DocumentProcessor.set_documents_dir dir (SimpleRAG.processor rag)).
  destruct (process_documents_extends w p) as (l & Hl & _).
  assert (Hshape : exists r i,
    SimpleRAG.update_documents w dir rag
    = (r, SimpleRAG.with_index i (SimpleRAG.with_processor (extend p l) rag))).
  { unfold SimpleRAG.update_documents. py_run.
    cbn [SimpleRAG.processor SimpleRAG.with_processor]. fold p.
    destruct (DocumentProcessor.process_documents w p) as [[[]|e] p'];
      simpl in Hl; subst p'.
    - cbn [SimpleRAG.processor SimpleRAG.with_processor].
      destruct (SimpleRAG.first_dimension (extend p l)) as [d|e].
      + cbn [SimpleRAG.index SimpleRAG.with_index SimpleRAG.processor].
        destruct (QdrantIndex.add_embeddings _ _ _) as [r i].
        exists r, i. reflexivity.
      + exists (Raise e), (SimpleRAG.index rag). reflexivity.
    - destruct (isinstance_ValueError e).
      + exists (Ok tt), (SimpleRAG.index rag). reflexivity.
      + exists (Raise e), (SimpleRAG.index rag). reflexivity. }
  destruct Hshape as (r & i & ->). cbn.
  split; [reflexivity|]. split; [now exists (map fst l)|].
  repeat split.
Qed.

(** X28: the partial result is what the query step gives when the
    endpoint answers with JSON that lacks [message.content]: what the
    subscripts raise is an [Exception], so [generate_response] returns
    [None] and the step returns [None] with the retrieved titles. *)
Theorem X28_answer_without_content
        (w : World) (rag : SimpleRAG.t) (query retrieved : string)
        (titles : list string) (status : nat) (v : json) (e : exn) :
  SimpleRAG.retrieve w rag query = Ok (retrieved, titles) ->
  requests_post w (SimpleRAG.api_url rag) (headers_of rag)
                (request_of rag query retrieved) = HttpResponse status (Some v) ->
  ~ (400 <= status < 600) ->
  (m <~ getitem v "message" ;; getitem m "content")%res = Raise e ->
  answer w rag query = Ok (None, titles).
Proof.
  intros Hret Hpost Hst Hget.
  assert (He : isinstance_Exception e = true).
  { unfold rbind in Hget.
    destruct (getitem v "message") as [m|e'] eqn:E.
    - eapply getitem_raises_exception; eauto.
    - injection Hget as <-. eapply getitem_raises_exception; eauto. }
  assert (Hgen : SimpleRAG.generate_response w rag query retrieved = Ok None).
  { unfold SimpleRAG.generate_response, EndPoint.send, RequestSender.send.
    change (requests_post w _ _ _)
      with (requests_post w (SimpleRAG.api_url rag) (headers_of rag)
                          (request_of rag query retrieved)).
    rewrite Hpost.
    destruct (raise_for_status_cases status) as [[-> _] | [_ H]]; [|contradiction].
    cbn [rbind]. rewrite Hget. now rewrite He. }
  unfold answer. rewrite Hret. cbn [rbind]. now rewrite Hgen.
Qed.

Lemma X28_answer_without_content_witness :
  answer (Sample.world (HttpResponse 200 (Some (JObj [("error", JStr "model not found")]))))
         Sample.rag "tell me about pets"
  = Ok (None, ["a.txt"; "b.txt"]).
Proof.
  apply (@X28_answer_without_content
           (Sample.world (HttpResponse 200 (Some (JObj [("error", JStr "model not found")]))))
           Sample.rag "tell me about pets"
           ("cats are mammals" ++ nl ++ "rockets use fuel" ++ nl)
           ["a.txt"; "b.txt"] 200 (JObj [("error", JStr "model not found")])
           (KeyError "message")).
  - reflexivity.
  - reflexivity.
  - lia.
  - reflexivity.
Defined.
